(** * A proof-of-work ledger: shallow embedding and verified properties

    The development follows the Python package [blockchain]:
    - [block.py]      the [Block] dataclass, [compute_hash], [to_dict], [from_dict];
    - [utils.py]      [validate_transaction];
    - [blockchain.py] the [Blockchain] class: transaction pool, mining,
                      proof of work, chain validation, conflict resolution
                      and persistence.

    [hashlib.sha256] and [json.dumps(..., sort_keys=True)] are written out,
    so that every definition below evaluates on concrete inputs.

    The program is embedded twice.  First on values of the types that the
    dataclass and the signatures declare: blocks with an integer index and a
    string hash, documents made of such blocks.  Then, in the module
    [Dynamic], on the values Python really handles: any JSON value in any
    field, candidate or file, with the exceptions that an operation on a
    value of the wrong type raises.  On well-typed values the two agree
    ([typed_program_agrees]). *)

From Stdlib Require Import ZArith List String Ascii Bool Lia.
From Stdlib Require Import DecimalString DecimalZ DecimalPos.
From stdpp Require Import gmap strings sorting.
Import ListNotations.

Local Open Scope string_scope.
Local Open Scope list_scope.
Local Open Scope Z_scope.

(** ** SHA-256 (FIPS 180-4), on 32-bit words held in [Z] *)

Module SHA256.

Definition w32 (x : Z) : Z := x mod 2 ^ 32.
Definition add32 (x y : Z) : Z := w32 (x + y).
Definition rotr (n x : Z) : Z :=
  Z.lor (Z.shiftr x n) (w32 (Z.shiftl x (32 - n))).
Definition shr (n x : Z) : Z := Z.shiftr x n.
Definition not32 (x : Z) : Z := 2 ^ 32 - 1 - x.

Definition Ch (x y z : Z) : Z := Z.lxor (Z.land x y) (Z.land (not32 x) z).
Definition Maj (x y z : Z) : Z :=
  Z.lxor (Z.lxor (Z.land x y) (Z.land x z)) (Z.land y z).
Definition Sigma0 (x : Z) : Z := Z.lxor (Z.lxor (rotr 2 x) (rotr 13 x)) (rotr 22 x).
Definition Sigma1 (x : Z) : Z := Z.lxor (Z.lxor (rotr 6 x) (rotr 11 x)) (rotr 25 x).
Definition sigma0 (x : Z) : Z := Z.lxor (Z.lxor (rotr 7 x) (rotr 18 x)) (shr 3 x).
Definition sigma1 (x : Z) : Z := Z.lxor (Z.lxor (rotr 17 x) (rotr 19 x)) (shr 10 x).

(** The round constants are the first 32 bits of the fractional parts of
    the cube roots of the first 64 primes, the initial hash value those of
    the square roots of the first 8. *)
Definition primes : list Z :=
  [ 2; 3; 5; 7; 11; 13; 17; 19; 23; 29; 31; 37; 41; 43; 47; 53; 59; 61; 67; 71;
    73; 79; 83; 89; 97; 101; 103; 107; 109; 113; 127; 131; 137; 139; 149; 151;
    157; 163; 167; 173; 179; 181; 191; 193; 197; 199; 211; 223; 227; 229; 233;
    239; 241; 251; 257; 263; 269; 271; 277; 281; 283; 293; 307; 311 ].

(** The largest [r + x] with [x < 2 ^ bits] and [(r + x) ^ k <= n]. *)
Fixpoint root (k n : Z) (bits : nat) (r : Z) : Z :=
  match bits with
  | O => r
  | S b =>
      let r' := r + 2 ^ Z.of_nat b in
      if r' ^ k <=? n then root k n b r' else root k n b r
  end.

Definition frac_root (k p : Z) : Z := w32 (root k (p * 2 ^ (32 * k)) 40 0).

Definition K : list Z := Eval vm_compute in List.map (frac_root 3) primes.

(** The eight working variables, and the hash value between blocks. *)
Record state := State { sa : Z; sb : Z; sc : Z; sd : Z; se : Z; sf : Z; sg : Z; sh : Z }.

Definition H0 : state :=
  Eval vm_compute in
    State (frac_root 2 2) (frac_root 2 3) (frac_root 2 5) (frac_root 2 7)
          (frac_root 2 11) (frac_root 2 13) (frac_root 2 17) (frac_root 2 19).

(** Padding: a 1 bit, zeros up to 56 mod 64 bytes, the bit length on 8 bytes. *)
Fixpoint be_bytes (n : nat) (x : Z) : list Z :=
  match n with
  | O => []
  | S n' => be_bytes n' (x / 256) ++ [x mod 256]
  end.

Definition pad (msg : list Z) : list Z :=
  let len := Z.of_nat (List.length msg) in
  let zeros := Z.to_nat ((55 - len) mod 64) in
  msg ++ [0x80] ++ List.repeat 0 zeros ++ be_bytes 8 (8 * len).

(** Big-endian words of one 64-byte block. *)
Fixpoint words (n : nat) (bs : list Z) : list Z :=
  match n with
  | O => []
  | S n' =>
      match bs with
      | b0 :: b1 :: b2 :: b3 :: rest =>
          (((b0 * 256 + b1) * 256 + b2) * 256 + b3) :: words n' rest
      | _ => []
      end
  end.

(** The message schedule is kept newest-first: [w] holds W(t-1), W(t-2), ... *)
Fixpoint schedule (n : nat) (w : list Z) : list Z :=
  match n with
  | O => w
  | S n' =>
      let wt := add32 (add32 (sigma1 (nth 1 w 0)) (nth 6 w 0))
                      (add32 (sigma0 (nth 14 w 0)) (nth 15 w 0)) in
      schedule n' (wt :: w)
  end.

Definition round (s : state) (kw : Z * Z) : state :=
  let t1 := add32 (add32 (add32 (sh s) (Sigma1 (se s))) (Ch (se s) (sf s) (sg s)))
                  (add32 (fst kw) (snd kw)) in
  let t2 := add32 (Sigma0 (sa s)) (Maj (sa s) (sb s) (sc s)) in
  State (add32 t1 t2) (sa s) (sb s) (sc s) (add32 (sd s) t1) (se s) (sf s) (sg s).

Definition compress (h : state) (block : list Z) : state :=
  let w := List.rev (schedule 48 (List.rev (words 16 block))) in
  let s := List.fold_left round (List.combine K w) h in
  State (add32 (sa h) (sa s)) (add32 (sb h) (sb s)) (add32 (sc h) (sc s))
        (add32 (sd h) (sd s)) (add32 (se h) (se s)) (add32 (sf h) (sf s))
        (add32 (sg h) (sg s)) (add32 (sh h) (sh s)).

Fixpoint blocks (n : nat) (h : state) (bs : list Z) : state :=
  match n with
  | O => h
  | S n' => blocks n' (compress h (List.firstn 64 bs)) (List.skipn 64 bs)
  end.

Definition digest (msg : list Z) : state :=
  let p := pad msg in
  blocks (List.length p / 64)%nat H0 p.

(** Lower-case hexadecimal, as [hexdigest] prints it. *)
Definition hex_digit (d : Z) : ascii :=
  ascii_of_N (Z.to_N (if d <? 10 then 48 + d else 87 + d)).

Fixpoint hex (n : nat) (x : Z) : string :=
  match n with
  | O => EmptyString
  | S n' => hex n' (x / 16) +:+ String (hex_digit (x mod 16)) EmptyString
  end.

Definition hex_state (s : state) : string :=
  hex 8 (sa s) +:+ hex 8 (sb s) +:+ hex 8 (sc s) +:+ hex 8 (sd s) +:+
  hex 8 (se s) +:+ hex 8 (sf s) +:+ hex 8 (sg s) +:+ hex 8 (sh s).

(** [str.encode()]: UTF-8.  A character of a [string] stands for the code
    point of the same number, so code points up to 255 are covered. *)
Definition encode_char (c : ascii) : list Z :=
  let n := Z.of_N (N_of_ascii c) in
  if n <? 128 then [n] else [Z.lor 0xC0 (Z.shiftr n 6); Z.lor 0x80 (Z.land n 0x3F)].

Definition encode (s : string) : list Z :=
  List.flat_map encode_char (list_ascii_of_string s).

(** [hashlib.sha256(s.encode()).hexdigest()] *)
Definition hexdigest (s : string) : string := hex_state (digest (encode s)).

End SHA256.


(** ** Python values that JSON can carry

    Transactions reach the ledger from the command line (strings, a float
    amount, metadata from [json.loads]), from the web form and from the
    storage file, so their values are those of JSON. *)

(** A [float] is identified by what [repr] prints for it: [repr] is one-to-one
    on the finite floats, and the program only prints floats and compares
    them with zero. *)
Inductive pyfloat :=
  | FNan
  | FInf (negative : bool)
  | FFinite (repr : string).

#[warnings="-register-all"]
Inductive json :=
  | JNull
  | JBool (b : bool)
  | JInt (z : Z)
  | JFloat (f : pyfloat)
  | JStr (s : string)
  | JList (l : list json)
  | JDict (d : list (string * json)).

(** A transaction is a [Dict[str, Any]], kept in insertion order. *)
Definition transaction := list (string * json).

Fixpoint dict_get (d : transaction) (k : string) : option json :=
  match d with
  | [] => None
  | (k', v) :: d' => if String.eqb k k' then Some v else dict_get d' k
  end.

Definition dict_keys (d : transaction) : list string := List.map fst d.

(** ** [json.dumps(obj, sort_keys=True)] *)

Module Json.

Definition dquote : ascii := "034"%char.
Definition quoted (s : string) : string :=
  String dquote EmptyString +:+ s +:+ String dquote EmptyString.

Definition repr_int (z : Z) : string := NilZero.string_of_int (Z.to_int z).

Definition float_repr (f : pyfloat) : string :=
  match f with
  | FNan => "NaN"
  | FInf false => "Infinity"
  | FInf true => "-Infinity"
  | FFinite r => r
  end.

(** [ensure_ascii=True]: everything outside [' '..'~'] is escaped. *)
Definition escape_char (c : ascii) : string :=
  let n := Z.of_N (N_of_ascii c) in
  if n =? 34 then "\" +:+ String dquote EmptyString
  else if n =? 92 then "\\"
  else if n =? 10 then "\n"
  else if n =? 13 then "\r"
  else if n =? 9 then "\t"
  else if n =? 8 then "\b"
  else if n =? 12 then "\f"
  else if (n <? 32) || (126 <? n) then "\u" +:+ SHA256.hex 4 n
  else String c EmptyString.

Fixpoint escape (s : string) : string :=
  match s with
  | EmptyString => EmptyString
  | String c s' => escape_char c +:+ escape s'
  end.

Definition encode_str (s : string) : string := quoted (escape s).

(** [sorted(dct.items())]: the keys of a dict are distinct, so the order is
    the order of the keys, by code point. *)
Fixpoint insert_item (kv : string * string) (l : list (string * string))
  : list (string * string) :=
  match l with
  | [] => [kv]
  | kv' :: l' =>
      if String.leb (fst kv) (fst kv') then kv :: l else kv' :: insert_item kv l'
  end.

Definition sort_items (l : list (string * string)) : list (string * string) :=
  List.fold_right insert_item [] l.

Definition item (kv : string * string) : string :=
  encode_str (fst kv) +:+ ": " +:+ snd kv.

Fixpoint dumps (v : json) : string :=
  match v with
  | JNull => "null"
  | JBool true => "true"
  | JBool false => "false"
  | JInt z => repr_int z
  | JFloat f => float_repr f
  | JStr s => encode_str s
  | JList l => "[" +:+ String.concat ", " (List.map dumps l) +:+ "]"
  | JDict d =>
      "{" +:+ String.concat ", "
                (List.map item
                   (sort_items (List.map (fun kv => (fst kv, dumps (snd kv))) d)))
          +:+ "}"
  end.

End Json.

(** ** The values Python has

    A [float] prints as digits with a sign, a point or an exponent, and a
    point or an exponent is always there ([repr] never prints a float as an
    integer); the keys of a dict are distinct. *)








(** ** Exceptions and results *)

(** [TypeError] and [AttributeError] come from operations on a value of
    another type than the code expects; their messages are left out. *)
Inductive exn :=
  | ValueError (msg : string)
  | KeyError (key : string)
  | IndexError (msg : string)
  | TypeError
  | AttributeError.

(** What a call does: it returns, it raises, or the search of
    [proof_of_work] is still running when the fuel is spent. *)
Inductive result (A : Type) :=
  | Return (a : A)
  | Raise (e : exn)
  | OutOfFuel.
Arguments Return {A} a.
Arguments Raise {A} e.
Arguments OutOfFuel {A}.

(** ** block.py *)

Record Block := mkBlock {
  index : Z;
  timestamp : pyfloat;
  transactions : list transaction;
  previous_hash : string;
  nonce : Z;
  hash : string
}.

Definition set_nonce (b : Block) (n : Z) : Block :=
  mkBlock (index b) (timestamp b) (transactions b) (previous_hash b) n (hash b).

Definition set_hash (b : Block) (h : string) : Block :=
  mkBlock (index b) (timestamp b) (transactions b) (previous_hash b) (nonce b) h.

(** The dict that [compute_hash] serialises: the five hashed fields. *)
Definition block_string (b : Block) : string :=
  Json.dumps (JDict [ ("index", JInt (index b));
                      ("timestamp", JFloat (timestamp b));
                      ("transactions", JList (List.map JDict (transactions b)));
                      ("previous_hash", JStr (previous_hash b));
                      ("nonce", JInt (nonce b)) ]).

Definition compute_hash (b : Block) : string := SHA256.hexdigest (block_string b).

(** The dict form of a block.  A key may be absent; a key that is present
    carries a value of the type the dataclass declares for the field.  (Dicts
    with other values, and what the program does with them, are in
    [Dynamic].) *)
Record BlockDict := mkBlockDict {
  d_index : option Z;
  d_timestamp : option pyfloat;
  d_transactions : option (list transaction);
  d_previous_hash : option string;
  d_nonce : option Z;
  d_hash : option string
}.

Definition to_dict (b : Block) : BlockDict :=
  mkBlockDict (Some (index b)) (Some (timestamp b)) (Some (transactions b))
              (Some (previous_hash b)) (Some (nonce b)) (Some (hash b)).

Definition get_default {A : Type} (o : option A) (default : A) : A :=
  match o with Some a => a | None => default end.

Definition from_dict (data : BlockDict) : result Block :=
  match d_index data with
  | None => Raise (KeyError "index")
  | Some i =>
      match d_timestamp data with
      | None => Raise (KeyError "timestamp")
      | Some t =>
          let block := mkBlock i t (get_default (d_transactions data) [])
                               (get_default (d_previous_hash data) "0")
                               (get_default (d_nonce data) 0) "" in
          Return (set_hash block (get_default (d_hash data) ""))
      end
  end.

(** [[Block.from_dict(b) for b in raw_chain]]: the first failure aborts. *)
Fixpoint from_dicts (raw_chain : list BlockDict) : result (list Block) :=
  match raw_chain with
  | [] => Return []
  | b :: rest =>
      match from_dict b with
      | Return blk =>
          match from_dicts rest with
          | Return blks => Return (blk :: blks)
          | Raise e => Raise e
          | OutOfFuel => OutOfFuel
          end
      | Raise e => Raise e
      | OutOfFuel => OutOfFuel
      end
  end.

(** ** utils.py *)

Definition required_fields : list string := ["sender"; "recipient"; "amount"].

(** [isinstance(amount, (int, float))]; [bool] is a subclass of [int]. *)
Definition is_int_or_float (v : json) : bool :=
  match v with
  | JInt _ | JBool _ | JFloat _ => true
  | _ => false
  end.

(** [amount <= 0] on a number.  A comparison with NaN is false. *)
Definition le_zero (v : json) : bool :=
  match v with
  | JInt z => z <=? 0
  | JBool b => negb b
  | JFloat FNan => false
  | JFloat (FInf negative) => negative
  | JFloat (FFinite r) => String.prefix "-" r || String.eqb r "0.0"
  | _ => false
  end.

(** The names in the message come out of a set; they are listed here in the
    order of [required_fields]. *)
Definition validate_transaction (t : transaction) : result unit :=
  let missing :=
    List.filter (fun k => negb (existsb (String.eqb k) (dict_keys t))) required_fields in
  match missing with
  | _ :: _ =>
      Raise (ValueError ("Transaction missing required fields: " +:+ String.concat ", " missing))
  | [] =>
      match dict_get t "amount" with
      | None => Raise (KeyError "amount")
      | Some amount =>
          if negb (is_int_or_float amount) || le_zero amount
          then Raise (ValueError "Transaction amount must be a positive number")
          else Return tt
      end
  end.

(** ** The file system, as far as the ledger uses it *)

(** A file holds text.  [json.load] either fails on it or yields a document;
    the documents the loader tells apart are a list of block dicts (the old
    format), a dict whose keys [chain] and [pending_transactions] may be
    absent, and any other JSON value.  [json.dump] followed by [json.load]
    gives the document back, so a file is kept as the document it holds. *)
Inductive pending_entry :=
  | PendingList (txs : list transaction)
  | PendingOther.

Inductive document :=
  | DocList (blocks : list BlockDict)
  | DocDict (chain_key : option (list BlockDict)) (pending_key : option pending_entry)
  | DocOther.

Inductive file :=
  | NotJson
  | JsonFile (d : document).

Abbreviation disk := (gmap string file).

(** ** blockchain.py *)

Record Blockchain := mkBlockchain {
  difficulty : Z;
  autosave : bool;
  storage_path : string;
  chain : list Block;
  pending_transactions : list transaction
}.

Definition set_chain (self : Blockchain) (c : list Block) : Blockchain :=
  mkBlockchain (difficulty self) (autosave self) (storage_path self) c
               (pending_transactions self).

Definition set_pending (self : Blockchain) (p : list transaction) : Blockchain :=
  mkBlockchain (difficulty self) (autosave self) (storage_path self) (chain self) p.

(** The ledger object together with the disk its methods write to. *)
Record world := mkWorld { ledger : Blockchain; files : disk }.

(** [s * n] on strings: empty when [n <= 0]. *)
Fixpoint str_repeat (s : string) (n : nat) : string :=
  match n with
  | O => EmptyString
  | S n' => s +:+ str_repeat s n'
  end.

Definition str_mul (s : string) (n : Z) : string := str_repeat s (Z.to_nat n).

Definition startswith (s prefix : string) : bool := String.prefix prefix s.

(** [l[-1]] *)
Fixpoint list_last {A : Type} (l : list A) : option A :=
  match l with
  | [] => None
  | [a] => Some a
  | _ :: l' => list_last l'
  end.

(** *** Persistence *)

(** The write replaces the file at [storage_path].  Directories and write
    errors are left out: [open] and [json.dump] succeed. *)
Definition save_chain (w : world) : world :=
  let self := ledger w in
  let data := DocDict (Some (List.map to_dict (chain self)))
                      (Some (PendingList (pending_transactions self))) in
  mkWorld self (<[storage_path self := JsonFile data]> (files w)).

(** *** Proof of work and validation *)

(** The [while True] loop, from [nonce] on, for at most [fuel] rounds. *)
Fixpoint pow_loop (fuel : nat) (prefix : string) (block : Block) (nonce : Z)
  : result Block :=
  match fuel with
  | O => OutOfFuel
  | S fuel' =>
      let block := set_nonce block nonce in
      let block_hash := compute_hash block in
      if startswith block_hash prefix
      then Return (set_hash block block_hash)
      else pow_loop fuel' prefix block (nonce + 1)
  end.

Definition proof_of_work (fuel : nat) (self : Blockchain) (block : Block)
  : result Block :=
  let prefix := str_mul "0" (difficulty self) in
  pow_loop fuel prefix block 0.

(** The body of [for i in range(1, len(chain))], over the remaining indices. *)
Fixpoint check_blocks (prefix : string) (chain : list Block) (range : list nat) : bool :=
  match range with
  | [] => true
  | i :: rest =>
      match nth_error chain i, nth_error chain (i - 1) with
      | Some current, Some prev =>
          if negb (index current =? Z.of_nat i) then false
          else if negb (String.eqb (previous_hash current) (hash prev)) then false
          else
            let computed_hash := compute_hash current in
            if negb (startswith computed_hash prefix)
               || negb (String.eqb (hash current) computed_hash)
            then false
            else check_blocks prefix chain rest
      | _, _ => false
      end
  end.

(** [chain or self.chain]: [None] and the empty list both give [self.chain]. *)
Definition chain_or (chain : option (list Block)) (own : list Block) : list Block :=
  match chain with
  | Some (b :: c) => b :: c
  | _ => own
  end.

Definition is_valid_chain (self : Blockchain) (supplied : option (list Block)) : bool :=
  let chain := chain_or supplied (chain self) in
  match chain with
  | [] => false
  | genesis :: _ =>
      let prefix := str_mul "0" (difficulty self) in
      if negb (index genesis =? 0) || negb (String.eqb (previous_hash genesis) "0")
      then false
      else
        let expected_genesis_hash := compute_hash genesis in
        if String.eqb (hash genesis) ""
           || negb (startswith (hash genesis) prefix)
           || negb (String.eqb (hash genesis) expected_genesis_hash)
        then false
        else check_blocks prefix chain (List.seq 1 (List.length chain - 1))
  end.

(** *** Block and transaction management *)

(** [now] is what [time.time()] returns when the block is built. *)
Definition create_genesis_block (fuel : nat) (now : pyfloat) (w : world)
  : result Block * world :=
  let self := ledger w in
  let genesis := mkBlock 0 now [] "0" 0 "" in
  match proof_of_work fuel self genesis with
  | Return genesis =>
      let w := mkWorld (set_chain self (chain self ++ [genesis])) (files w) in
      let w := if autosave self then save_chain w else w in
      (Return genesis, w)
  | Raise e => (Raise e, w)
  | OutOfFuel => (OutOfFuel, w)
  end.

Definition add_transaction (t : transaction) (w : world) : result unit * world :=
  let self := ledger w in
  match validate_transaction t with
  | Return _ =>
      let w := mkWorld (set_pending self (pending_transactions self ++ [t])) (files w) in
      let w := if autosave self then save_chain w else w in
      (Return tt, w)
  | Raise e => (Raise e, w)
  | OutOfFuel => (OutOfFuel, w)
  end.

Definition mine_pending_transactions (fuel : nat) (now : pyfloat) (w : world)
  : result Block * world :=
  let self := ledger w in
  match pending_transactions self with
  | [] => (Raise (ValueError "No transactions to mine"), w)
  | _ :: _ =>
      let index := Z.of_nat (List.length (chain self)) in
      match list_last (chain self) with
      | None => (Raise (IndexError "list index out of range"), w)
      | Some last_block =>
          let previous_hash := hash last_block in
          let transactions_copy := pending_transactions self in
          let block := mkBlock index now transactions_copy previous_hash 0 "" in
          match proof_of_work fuel self block with
          | Return block =>
              let self := set_chain self (chain self ++ [block]) in
              let self := set_pending self [] in
              let w := mkWorld self (files w) in
              let w := if autosave self then save_chain w else w in
              (Return block, w)
          | Raise e => (Raise e, w)
          | OutOfFuel => (OutOfFuel, w)
          end
      end
  end.

(** *** Conflict resolution *)

(** One round of the loop over [neighbour_chains]; the loop state is
    [(new_chain, max_length)].  The candidates are lists of well-typed
    block dicts, on which [is_valid_chain] cannot raise; for any other
    candidate see [Dynamic.resolve_conflicts]. *)
Definition resolve_step (self : Blockchain)
    (st : option (list Block) * nat) (raw_chain : list BlockDict)
  : option (list Block) * nat :=
  let '(new_chain, max_length) := st in
  match from_dicts raw_chain with
  | Return chain_blocks =>
      if (max_length <? List.length chain_blocks)%nat
         && is_valid_chain self (Some chain_blocks)
      then (Some chain_blocks, List.length chain_blocks)
      else st
  | _ => st
  end.

Definition resolve_conflicts (neighbour_chains : list (list BlockDict)) (w : world)
  : bool * world :=
  let self := ledger w in
  let '(new_chain, _) :=
    List.fold_left (resolve_step self) neighbour_chains
                   (None, List.length (chain self)) in
  match new_chain with
  | Some (b :: c) =>
      let w := mkWorld (set_chain self (b :: c)) (files w) in
      let w := if autosave self then save_chain w else w in
      (true, w)
  | _ => (false, w)
  end.

(** *** Loading and construction *)

(** The documents are well typed, so the validation after the [try] cannot
    raise; for any other document see [Dynamic.load_chain]. *)
Definition load_chain (w : world) : bool * world :=
  let self := ledger w in
  match files w !! storage_path self with
  | None => (false, w)
  | Some NotJson => (false, w)
  | Some (JsonFile data) =>
      let parsed :=
        match data with
        | DocList blocks =>
            match from_dicts blocks with
            | Return loaded_chain => Some (loaded_chain, [])
            | _ => None
            end
        | DocDict chain_key pending_key =>
            match from_dicts (get_default chain_key []) with
            | Return loaded_chain =>
                let pending :=
                  match get_default pending_key (PendingList []) with
                  | PendingList txs => txs
                  | PendingOther => []
                  end in
                Some (loaded_chain, pending)
            | _ => None
            end
        | DocOther => None
        end in
      match parsed with
      | None => (false, w)
      | Some (loaded_chain, pending) =>
          if is_valid_chain self (Some loaded_chain)
          then (true, mkWorld (set_pending (set_chain self loaded_chain) pending) (files w))
          else (false, w)
      end
  end.

(** [os.path.join(os.getcwd(), "blockchain.json")] on a POSIX system. *)
Definition default_storage_path (cwd : string) : string :=
  if String.eqb cwd "" then "blockchain.json"
  else if String.eqb (String.substring (String.length cwd - 1) 1 cwd) "/"
       then cwd +:+ "blockchain.json"
       else cwd +:+ "/blockchain.json".

(** [Blockchain.__init__]: [storage_path or default]. *)
Definition init (fuel : nat) (now : pyfloat) (cwd : string)
    (difficulty : Z) (autosave : bool) (storage_path : option string) (fs : disk)
  : result unit * world :=
  let path :=
    match storage_path with
    | Some p => if String.eqb p "" then default_storage_path cwd else p
    | None => default_storage_path cwd
    end in
  let w := mkWorld (mkBlockchain difficulty autosave path [] []) fs in
  let '(loaded, w) := load_chain w in
  if loaded then (Return tt, w)
  else
    match create_genesis_block fuel now w with
    | (Return _, w) => (Return tt, w)
    | (Raise e, w) => (Raise e, w)
    | (OutOfFuel, w) => (OutOfFuel, w)
    end.

(** * Vocabulary of the specification *)

(** The hash [h] starts with [d] characters ["0"]. *)
Definition leading_zeros (d : Z) (h : string) : Prop :=
  exists rest, h = str_mul "0" d +:+ rest.

(** What the specification asks of the first block of a chain. *)
Definition genesis_ok (d : Z) (g : Block) : Prop :=
  index g = 0 /\ previous_hash g = "0" /\ hash g <> "" /\
  hash g = compute_hash g /\ leading_zeros d (hash g).

(** What the specification asks of the block [cur] at position [i > 0],
    whose predecessor in the chain is [prev]. *)
Definition successor_ok (d : Z) (i : nat) (prev cur : Block) : Prop :=
  index cur = Z.of_nat i /\ previous_hash cur = hash prev /\
  compute_hash cur = hash cur /\ leading_zeros d (hash cur).

Definition chain_ok (d : Z) (c : list Block) : Prop :=
  (exists g, nth_error c 0 = Some g /\ genesis_ok d g) /\
  (forall i prev cur, (0 < i)%nat ->
     nth_error c (i - 1) = Some prev -> nth_error c i = Some cur ->
     successor_ok d i prev cur).

(** The block that mining yields when the search stops at nonce [n]. *)
Definition mined (b : Block) (n : Z) : Block :=
  mkBlock (index b) (timestamp b) (transactions b) (previous_hash b) n
          (compute_hash (set_nonce b n)).

(** Nonce [n] solves the puzzle for the contents of [b] at difficulty [d]. *)
Definition solves (d : Z) (b : Block) (n : Z) : Prop :=
  leading_zeros d (compute_hash (set_nonce b n)).

(** Two blocks with the same hashed contents, nonce apart. *)
Definition same_contents (b b' : Block) : Prop :=
  index b = index b' /\ timestamp b = timestamp b' /\
  transactions b = transactions b' /\ previous_hash b = previous_hash b'.

(** A positive number, as Python has it: an [int] or a [float] above zero
    ([True] is the integer 1); NaN is not above zero. *)
Definition positive_number (v : json) : bool :=
  match v with
  | JInt z => 0 <? z
  | JBool b => b
  | JFloat (FInf negative) => negb negative
  | JFloat (FFinite r) => negb (String.prefix "-" r) && negb (String.eqb r "0.0")
  | _ => false
  end.

Definition has_key (t : transaction) (k : string) : Prop := In k (dict_keys t).

(** The transaction has the three mandatory keys and a positive amount. *)
Definition well_formed_transaction (t : transaction) : Prop :=
  has_key t "sender" /\ has_key t "recipient" /\ has_key t "amount" /\
  exists amount, dict_get t "amount" = Some amount /\ positive_number amount = true.

(** A candidate [raw] deserialises to [c], and [c] is a valid chain strictly
    longer than the local one. *)
Definition qualifies (self : Blockchain) (raw : list BlockDict) (c : list Block) : Prop :=
  from_dicts raw = Return c /\ chain_ok (difficulty self) c /\
  (List.length (chain self) < List.length c)%nat.

(** What the loop of [resolve_conflicts] has established once it has gone
    through the candidates [seen]. *)
Definition resolve_inv (self : Blockchain) (seen : list (list BlockDict))
    (st : option (list Block) * nat) : Prop :=
  match fst st with
  | None =>
      snd st = length (chain self) /\
      forall raw c, In raw seen -> ~ qualifies self raw c
  | Some best =>
      snd st = length best /\
      exists before raw after,
        seen = before ++ raw :: after /\ qualifies self raw best /\
        (forall raw' c', In raw' before -> qualifies self raw' c' ->
           (length c' < length best)%nat) /\
        (forall raw' c', In raw' after -> qualifies self raw' c' ->
           (length c' <= length best)%nat)
  end.

(** The ledger has difficulty [d] and a chain that is valid at [d]. *)
Definition ledger_ok (d : Z) (w : world) : Prop :=
  difficulty (ledger w) = d /\ chain_ok d (chain (ledger w)).

(** Tampering: one field of one block is overwritten, nothing is re-mined. *)
Inductive mutation :=
  | SetIndex (v : Z)
  | SetTimestamp (v : pyfloat)
  | SetTransactions (v : list transaction)
  | SetPreviousHash (v : string)
  | SetNonce (v : Z)
  | SetHash (v : string).

Definition mutate (m : mutation) (b : Block) : Block :=
  match m with
  | SetIndex v => mkBlock v (timestamp b) (transactions b) (previous_hash b) (nonce b) (hash b)
  | SetTimestamp v => mkBlock (index b) v (transactions b) (previous_hash b) (nonce b) (hash b)
  | SetTransactions v => mkBlock (index b) (timestamp b) v (previous_hash b) (nonce b) (hash b)
  | SetPreviousHash v => mkBlock (index b) (timestamp b) (transactions b) v (nonce b) (hash b)
  | SetNonce v => set_nonce b v
  | SetHash v => set_hash b v
  end.


(** The mutation overwrites a field that only the digest protects. *)
Definition digest_protected (m : mutation) : bool :=
  match m with
  | SetTimestamp _ | SetTransactions _ | SetNonce _ => true
  | _ => false
  end.







(** Calls on a ledger, and the world a call leaves when it returns. *)
Inductive call :=
  | CallAddTransaction (t : transaction)
  | CallMine (fuel : nat) (now : pyfloat)
  | CallResolve (neighbour_chains : list (list BlockDict)).

Definition perform (c : call) (w : world) : option world :=
  match c with
  | CallAddTransaction t =>
      match add_transaction t w with
      | (Return _, w') => Some w'
      | _ => None
      end
  | CallMine fuel now =>
      match mine_pending_transactions fuel now w with
      | (Return _, w') => Some w'
      | _ => None
      end
  | CallResolve neighbour_chains => Some (snd (resolve_conflicts neighbour_chains w))
  end.

Fixpoint perform_all (cs : list call) (w : world) : option world :=
  match cs with
  | [] => Some w
  | c :: cs' =>
      match perform c w with
      | Some w' => perform_all cs' w'
      | None => None
      end
  end.

(** * Sample data

    A ledger of difficulty 1, as the code builds it when the clock reads
    1700000000.5 at construction and 1700000001.25 when the first block is
    mined. *)

Definition alice_pays_bob : transaction :=
  [("sender", JStr "Alice"); ("recipient", JStr "Bob"); ("amount", JInt 10)].

Definition genesis_1 : Block :=
  mkBlock 0 (FFinite "1700000000.5") [] "0" 12
          "02f9e33f3af1fdc9d52e636fa3816f3591bb8d51a1d8c40547187f309ac3688b".

Definition block_1 : Block :=
  mkBlock 1 (FFinite "1700000001.25") [alice_pays_bob]
          "02f9e33f3af1fdc9d52e636fa3816f3591bb8d51a1d8c40547187f309ac3688b" 5
          "041437a4a6f3276879235a83922b9b2cfc04023ff710515bbcb07c6964f9dfc8".

Definition ledger_1 : Blockchain := mkBlockchain 1 false "chain.json" [genesis_1] [].

Definition ledger_2 : Blockchain :=
  mkBlockchain 1 false "chain.json" [genesis_1; block_1] [].

(** The sample ledger with Alice's payment in the pool. *)
Definition ledger_1_pending : Blockchain :=
  mkBlockchain 1 false "chain.json" [genesis_1] [alice_pays_bob].

(** A block as [create_genesis_block] builds it, before the search. *)
Definition genesis_candidate : Block := mkBlock 0 (FFinite "1700000000.5") [] "0" 0 "".

(** A payment whose amount is [float("nan")]. *)
Definition nan_payment : transaction :=
  [("sender", JStr "Alice"); ("recipient", JStr "Bob"); ("amount", JFloat FNan)].

(** Alice's payment with the amount changed to 999. *)
Definition alice_pays_more : transaction :=
  [("sender", JStr "Alice"); ("recipient", JStr "Bob"); ("amount", JInt 999)].

(** * The rest of the package *)

(** ** persistence.py *)

Module Persistence.

(** [save_chain(chain, path)]: the old format, a bare list of block dicts. *)
Definition save_chain (chain : list Block) (path : string) (fs : disk) : disk :=
  <[path := JsonFile (DocList (List.map to_dict chain))]> fs.

End Persistence.

(** ** cli.py

    The branches of [main] for the commands [add-transaction] and [mine],
    given what [argparse] has parsed.  What is printed is left
    out; the result is how the process ends and the disk it leaves. *)

(** [d[k] = v]: a key that is there keeps its place. *)
Fixpoint dict_set (d : transaction) (k : string) (v : json) : transaction :=
  match d with
  | [] => [(k, v)]
  | (k', v') :: d' =>
      if String.eqb k k' then (k, v) :: d' else (k', v') :: dict_set d' k v
  end.

(** [{**d, **extra}] *)
Definition dict_update (d extra : transaction) : transaction :=
  List.fold_left (fun acc kv => dict_set acc (fst kv) (snd kv)) extra d.

(** The option [--metadata]: absent or empty, text that [json.loads]
    rejects, or the value [json.loads] gives. *)
Inductive metadata_option :=
  | NoMetadata
  | MetadataNotJson
  | Metadata (v : json).

(** How the process ends: it runs to the end of [main], it calls
    [sys.exit(1)], it dies of an exception nobody catches, or it is still
    mining. *)
Inductive ending :=
  | Finished
  | Exit1
  | Traceback
  | StillMining.

(** [{"sender": ns.sender, "recipient": ns.recipient, "amount": ns.amount,
    **metadata}] *)
Definition cli_transaction (sender recipient : string) (amount : pyfloat)
    (metadata : transaction) : transaction :=
  dict_update [("sender", JStr sender); ("recipient", JStr recipient);
               ("amount", JFloat amount)] metadata.

(** The dict that [**metadata] unpacks: that of the option when it holds a
    JSON object, the empty dict when the option is absent or empty. *)
Definition metadata_items (metadata : metadata_option) : transaction :=
  match metadata with
  | Metadata (JDict m) => m
  | _ => []
  end.

(** [Blockchain(difficulty=ns.difficulty, autosave=True, storage_path=ns.storage)] *)
Definition cli_blockchain (fuel : nat) (now : pyfloat) (cwd storage : string)
    (difficulty : Z) (fs : disk) : result unit * world :=
  init fuel now cwd difficulty true (Some storage) fs.

Definition main_add_transaction (fuel : nat) (now : pyfloat) (cwd storage : string)
    (difficulty : Z) (sender recipient : string) (amount : pyfloat)
    (metadata : metadata_option) (fs : disk) : ending * disk :=
  match cli_blockchain fuel now cwd storage difficulty fs with
  | (Return _, w) =>
      let add metadata :=
        let tx := cli_transaction sender recipient amount metadata in
        match add_transaction tx w with
        | (Return _, w') => (Finished, files w')
        | (Raise (ValueError _), w') => (Exit1, files w')
        | (Raise _, w') => (Traceback, files w')
        | (OutOfFuel, w') => (StillMining, files w')
        end in
      match metadata with
      | NoMetadata => add []
      | MetadataNotJson => (Exit1, files w)
      | Metadata (JDict m) => add m
      | Metadata _ => (Traceback, files w)
      end
  | (Raise _, w) => (Traceback, files w)
  | (OutOfFuel, w) => (StillMining, files w)
  end.

(** [now] is the clock when the constructor runs, [now'] when the block is
    built. *)
Definition main_mine (fuel : nat) (now now' : pyfloat) (cwd storage : string)
    (difficulty : Z) (fs : disk) : ending * disk :=
  match cli_blockchain fuel now cwd storage difficulty fs with
  | (Return _, w) =>
      match mine_pending_transactions fuel now' w with
      | (Return _, w') => (Finished, files w')
      | (Raise (ValueError _), w') => (Exit1, files w')
      | (Raise _, w') => (Traceback, files w')
      | (OutOfFuel, w') => (StillMining, files w')
      end
  | (Raise _, w) => (Traceback, files w)
  | (OutOfFuel, w) => (StillMining, files w)
  end.

(** ** Vocabulary for the properties of the rest *)

(** The block [b] is what the dict [d] stands for: the keys that are there
    give the fields, the others take the defaults of [from_dict]. *)
Definition represents (d : BlockDict) (b : Block) : Prop :=
  d_index d = Some (index b) /\ d_timestamp d = Some (timestamp b) /\
  transactions b = get_default (d_transactions d) [] /\
  previous_hash b = get_default (d_previous_hash d) "0" /\
  nonce b = get_default (d_nonce d) 0 /\
  hash b = get_default (d_hash d) "".

(** The dict lacks a key that [from_dict] reads with [data[...]]. *)
Definition lacks_required_key (d : BlockDict) : Prop :=
  d_index d = None \/ d_timestamp d = None.


(** The file at [storage_path] holds the chain and the pool of the ledger,
    as [Blockchain.save_chain] writes them. *)
Definition stored (w : world) : Prop :=
  files w !! storage_path (ledger w)
  = Some (JsonFile (DocDict (Some (List.map to_dict (chain (ledger w))))
                            (Some (PendingList (pending_transactions (ledger w)))))).


(** The sample ledger, asked for no zeros at all. *)
Definition ledger_2_easy : Blockchain :=
  mkBlockchain 0 false "chain.json" [genesis_1; block_1] [].

(** What [validate_transaction] lets through: the three keys are there and
    the amount is an [int] or a [float] for which [amount <= 0] is false. *)
Definition acceptable (t : transaction) : Prop :=
  has_key t "sender" /\ has_key t "recipient" /\ has_key t "amount" /\
  exists amount, dict_get t "amount" = Some amount /\
                 is_int_or_float amount = true /\ le_zero amount = false.

(** The pool a file gives back: that of the key [pending_transactions] when
    it holds a list, none otherwise. *)
Definition pool_in_file (f : file) : list transaction :=
  match f with
  | JsonFile (DocDict _ (Some (PendingList txs))) => txs
  | _ => []
  end.

(** The block dicts a file holds. *)
Definition blocks_in_file (f : file) : list BlockDict :=
  match f with
  | JsonFile (DocList raw) => raw
  | JsonFile (DocDict chain_key _) => get_default chain_key []
  | _ => []
  end.

(** The file at [p] holds this chain and this pool. *)
Definition holds (fs : disk) (p : string) (c : list Block) (pool : list transaction) : Prop :=
  fs !! p = Some (JsonFile (DocDict (Some (List.map to_dict c)) (Some (PendingList pool)))).

(** Metadata that sets the amount to -5. *)
Definition negative_amount : transaction := [("amount", JInt (-5))].

(** * The program on untyped values

    The dataclass [Block] declares the types of its fields and checks none,
    and neither [Block.from_dict] nor the loaders check what [json.load] or
    a neighbour hands them.  Here a field holds any JSON value, a candidate
    chain and a stored document are any JSON value, and an operation on a
    value of another type than the code expects raises as Python does. *)

Module Dynamic.

Record Block := mkBlock {
  index : json;
  timestamp : json;
  transactions : json;
  previous_hash : json;
  nonce : json;
  hash : json
}.

Definition set_nonce (b : Block) (n : json) : Block :=
  mkBlock (index b) (timestamp b) (transactions b) (previous_hash b) n (hash b).

Definition set_hash (b : Block) (h : json) : Block :=
  mkBlock (index b) (timestamp b) (transactions b) (previous_hash b) (nonce b) h.

Definition block_string (b : Block) : string :=
  Json.dumps (JDict [ ("index", index b);
                      ("timestamp", timestamp b);
                      ("transactions", transactions b);
                      ("previous_hash", previous_hash b);
                      ("nonce", nonce b) ]).

Definition compute_hash (b : Block) : string := SHA256.hexdigest (block_string b).

Definition to_dict (b : Block) : json :=
  JDict [ ("index", index b);
          ("timestamp", timestamp b);
          ("transactions", transactions b);
          ("previous_hash", previous_hash b);
          ("nonce", nonce b);
          ("hash", hash b) ].

(** [d.get(key, default)] on a dict. *)
Definition get (d : list (string * json)) (key : string) (default : json) : json :=
  match dict_get d key with
  | Some v => v
  | None => default
  end.

(** [data["index"]] fails with [KeyError] on a dict without the key and
    with [TypeError] on a list, a string, a number, a boolean or [None]. *)
Definition from_dict (data : json) : result Block :=
  match data with
  | JDict d =>
      match dict_get d "index" with
      | None => Raise (KeyError "index")
      | Some i =>
          match dict_get d "timestamp" with
          | None => Raise (KeyError "timestamp")
          | Some t =>
              let block := mkBlock i t (get d "transactions" (JList []))
                                   (get d "previous_hash" (JStr "0"))
                                   (get d "nonce" (JInt 0)) (JStr "") in
              Return (set_hash block (get d "hash" (JStr "")))
          end
      end
  | _ => Raise TypeError
  end.

(** [for b in raw_chain]: the elements of a list, the keys of a dict, the
    characters of a string; nothing else can be iterated. *)
Definition iterate (v : json) : result (list json) :=
  match v with
  | JList l => Return l
  | JDict d => Return (List.map (fun kv => JStr (fst kv)) d)
  | JStr s => Return (List.map (fun c => JStr (String c EmptyString)) (list_ascii_of_string s))
  | _ => Raise TypeError
  end.

Fixpoint from_dicts (raw_chain : list json) : result (list Block) :=
  match raw_chain with
  | [] => Return []
  | b :: rest =>
      match from_dict b with
      | Return blk =>
          match from_dicts rest with
          | Return blks => Return (blk :: blks)
          | Raise e => Raise e
          | OutOfFuel => OutOfFuel
          end
      | Raise e => Raise e
      | OutOfFuel => OutOfFuel
      end
  end.

(** [[Block.from_dict(b) for b in raw_chain]] *)
Definition deserialize (raw_chain : json) : result (list Block) :=
  match iterate raw_chain with
  | Return l => from_dicts l
  | Raise e => Raise e
  | OutOfFuel => OutOfFuel
  end.

(** ** [==] and truth *)

Definition float_is_zero (f : pyfloat) : bool :=
  match f with
  | FFinite r => String.eqb r "0.0" || String.eqb r "-0.0"
  | _ => false
  end.

(** NaN equals nothing; the two zeros are equal. *)
Definition float_eq (f f' : pyfloat) : bool :=
  match f, f' with
  | FInf a, FInf b => Bool.eqb a b
  | FFinite r, FFinite r' => String.eqb r r' || (float_is_zero f && float_is_zero f')
  | _, _ => false
  end.

(** A float equals the integer [z] when it prints as [z] followed by [.0].
    This is exact below [10 ^ 16]; from there on [repr] prints an exponent,
    and no list has such a position. *)
Definition float_eq_int (f : pyfloat) (z : Z) : bool :=
  match f with
  | FFinite r => String.eqb r (Json.repr_int z +:+ ".0") || ((z =? 0) && String.eqb r "-0.0")
  | _ => false
  end.

(** [bool] is a subclass of [int]. *)
Definition as_int (v : json) : option Z :=
  match v with
  | JBool true => Some 1
  | JBool false => Some 0
  | JInt z => Some z
  | _ => None
  end.

Fixpoint py_eq (v v' : json) {struct v} : bool :=
  match v, v' with
  | JNull, JNull => true
  | JStr s, JStr s' => String.eqb s s'
  | JList l, JList l' =>
      (fix go (l l' : list json) : bool :=
         match l, l' with
         | [], [] => true
         | x :: t, x' :: t' => py_eq x x' && go t t'
         | _, _ => false
         end) l l'
  | JDict d, JDict d' =>
      (length d =? length d')%nat &&
      forallb (fun kv => match dict_get d' (fst kv) with
                         | Some x' => py_eq (snd kv) x'
                         | None => false
                         end) d
  | JFloat f, JFloat f' => float_eq f f'
  | JFloat f, (JInt _ | JBool _) =>
      match as_int v' with Some z => float_eq_int f z | None => false end
  | (JInt _ | JBool _), JFloat f' =>
      match as_int v with Some z => float_eq_int f' z | None => false end
  | (JInt _ | JBool _), (JInt _ | JBool _) =>
      match as_int v, as_int v' with
      | Some z, Some z' => z =? z'
      | _, _ => false
      end
  | _, _ => false
  end.

(** [bool(v)] *)
Definition truthy (v : json) : bool :=
  match v with
  | JNull => false
  | JBool b => b
  | JInt z => negb (z =? 0)
  | JFloat f => negb (float_is_zero f)
  | JStr s => negb (String.eqb s "")
  | JList l => match l with [] => false | _ :: _ => true end
  | JDict d => match d with [] => false | _ :: _ => true end
  end.

(** ** The file system *)

(** A file holds text that [json.load] rejects, or a JSON value. *)
Inductive file :=
  | NotJson
  | JsonFile (data : json).

Abbreviation disk := (gmap string file).

(** ** blockchain.py *)

Record Blockchain := mkBlockchain {
  difficulty : Z;
  autosave : bool;
  storage_path : string;
  chain : list Block;
  pending_transactions : list json
}.

Definition set_chain (self : Blockchain) (c : list Block) : Blockchain :=
  mkBlockchain (difficulty self) (autosave self) (storage_path self) c
               (pending_transactions self).

Definition set_pending (self : Blockchain) (p : list json) : Blockchain :=
  mkBlockchain (difficulty self) (autosave self) (storage_path self) (chain self) p.

Record world := mkWorld { ledger : Blockchain; files : disk }.

(** Directories and write errors are left out, as in the typed model. *)
Definition save_chain (w : world) : world :=
  let self := ledger w in
  let data := JDict [ ("chain", JList (List.map to_dict (chain self)));
                      ("pending_transactions", JList (pending_transactions self)) ] in
  mkWorld self (<[storage_path self := JsonFile data]> (files w)).

Fixpoint pow_loop (fuel : nat) (prefix : string) (block : Block) (nonce : Z)
  : result Block :=
  match fuel with
  | O => OutOfFuel
  | S fuel' =>
      let block := set_nonce block (JInt nonce) in
      let block_hash := compute_hash block in
      if startswith block_hash prefix
      then Return (set_hash block (JStr block_hash))
      else pow_loop fuel' prefix block (nonce + 1)
  end.

Definition proof_of_work (fuel : nat) (self : Blockchain) (block : Block)
  : result Block :=
  let prefix := str_mul "0" (difficulty self) in
  pow_loop fuel prefix block 0.

(** The body of [for i in range(1, len(chain))]; [computed_hash] is a
    string, so nothing here can raise. *)
Fixpoint check_blocks (prefix : string) (chain : list Block) (range : list nat) : bool :=
  match range with
  | [] => true
  | i :: rest =>
      match nth_error chain i, nth_error chain (i - 1) with
      | Some current, Some prev =>
          if negb (py_eq (index current) (JInt (Z.of_nat i))) then false
          else if negb (py_eq (previous_hash current) (hash prev)) then false
          else
            let computed_hash := compute_hash current in
            if negb (startswith computed_hash prefix)
               || negb (py_eq (hash current) (JStr computed_hash))
            then false
            else check_blocks prefix chain rest
      | _, _ => false
      end
  end.

Definition chain_or (chain : option (list Block)) (own : list Block) : list Block :=
  match chain with
  | Some (b :: c) => b :: c
  | _ => own
  end.

(** [genesis.hash.startswith(prefix)] is reached when [genesis.hash] is
    truthy; a truthy value that is no string has no such method. *)
Definition is_valid_chain (self : Blockchain) (supplied : option (list Block))
  : result bool :=
  let chain := chain_or supplied (chain self) in
  match chain with
  | [] => Return false
  | genesis :: _ =>
      let prefix := str_mul "0" (difficulty self) in
      if negb (py_eq (index genesis) (JInt 0))
         || negb (py_eq (previous_hash genesis) (JStr "0"))
      then Return false
      else
        let expected_genesis_hash := compute_hash genesis in
        if negb (truthy (hash genesis)) then Return false
        else
          match hash genesis with
          | JStr h =>
              if negb (startswith h prefix) || negb (String.eqb h expected_genesis_hash)
              then Return false
              else Return (check_blocks prefix chain (List.seq 1 (List.length chain - 1)))
          | _ => Raise AttributeError
          end
  end.

Definition create_genesis_block (fuel : nat) (now : pyfloat) (w : world)
  : result Block * world :=
  let self := ledger w in
  let genesis := mkBlock (JInt 0) (JFloat now) (JList []) (JStr "0") (JInt 0) (JStr "") in
  match proof_of_work fuel self genesis with
  | Return genesis =>
      let w := mkWorld (set_chain self (chain self ++ [genesis])) (files w) in
      let w := if autosave self then save_chain w else w in
      (Return genesis, w)
  | Raise e => (Raise e, w)
  | OutOfFuel => (OutOfFuel, w)
  end.

(** One round of the loop over [neighbour_chains].  The [try] covers the
    deserialisation only: what [is_valid_chain] raises leaves the loop and
    the method. *)
Definition resolve_step (self : Blockchain)
    (st : option (list Block) * nat) (raw_chain : json)
  : result (option (list Block) * nat) :=
  match deserialize raw_chain with
  | Return chain_blocks =>
      if (snd st <? List.length chain_blocks)%nat
      then
        match is_valid_chain self (Some chain_blocks) with
        | Return true => Return (Some chain_blocks, List.length chain_blocks)
        | Return false => Return st
        | Raise e => Raise e
        | OutOfFuel => OutOfFuel
        end
      else Return st
  | _ => Return st
  end.

Fixpoint resolve_loop (self : Blockchain) (neighbour_chains : list json)
    (st : option (list Block) * nat) : result (option (list Block) * nat) :=
  match neighbour_chains with
  | [] => Return st
  | raw_chain :: rest =>
      match resolve_step self st raw_chain with
      | Return st' => resolve_loop self rest st'
      | Raise e => Raise e
      | OutOfFuel => OutOfFuel
      end
  end.

Definition resolve_conflicts (neighbour_chains : list json) (w : world)
  : result bool * world :=
  let self := ledger w in
  match resolve_loop self neighbour_chains (None, List.length (chain self)) with
  | Return (Some (b :: c), _) =>
      let w := mkWorld (set_chain self (b :: c)) (files w) in
      let w := if autosave self then save_chain w else w in
      (Return true, w)
  | Return _ => (Return false, w)
  | Raise e => (Raise e, w)
  | OutOfFuel => (OutOfFuel, w)
  end.

(** The [try] covers reading and deserialising; the validation comes after
    it. *)
Definition load_chain (w : world) : result bool * world :=
  let self := ledger w in
  match files w !! storage_path self with
  | None => (Return false, w)
  | Some NotJson => (Return false, w)
  | Some (JsonFile data) =>
      let parsed :=
        match data with
        | JList _ =>
            match deserialize data with
            | Return loaded_chain => Some (loaded_chain, [])
            | _ => None
            end
        | JDict d =>
            match deserialize (get d "chain" (JList [])) with
            | Return loaded_chain =>
                let pending :=
                  match get d "pending_transactions" (JList []) with
                  | JList txs => txs
                  | _ => []
                  end in
                Some (loaded_chain, pending)
            | _ => None
            end
        | _ => None
        end in
      match parsed with
      | None => (Return false, w)
      | Some (loaded_chain, pending) =>
          match is_valid_chain self (Some loaded_chain) with
          | Return true =>
              (Return true,
               mkWorld (set_pending (set_chain self loaded_chain) pending) (files w))
          | Return false => (Return false, w)
          | Raise e => (Raise e, w)
          | OutOfFuel => (OutOfFuel, w)
          end
      end
  end.

Definition init (fuel : nat) (now : pyfloat) (cwd : string)
    (difficulty : Z) (autosave : bool) (storage_path : option string) (fs : disk)
  : result unit * world :=
  let path :=
    match storage_path with
    | Some p => if String.eqb p "" then default_storage_path cwd else p
    | None => default_storage_path cwd
    end in
  let w := mkWorld (mkBlockchain difficulty autosave path [] []) fs in
  match load_chain w with
  | (Return true, w) => (Return tt, w)
  | (Return false, w) =>
      match create_genesis_block fuel now w with
      | (Return _, w) => (Return tt, w)
      | (Raise e, w) => (Raise e, w)
      | (OutOfFuel, w) => (OutOfFuel, w)
      end
  | (Raise e, w) => (Raise e, w)
  | (OutOfFuel, w) => (OutOfFuel, w)
  end.

(** ** cli.py: the command [validate] *)


End Dynamic.

(** ** The typed values among the untyped ones *)

Definition dynamic_block (b : Block) : Dynamic.Block :=
  Dynamic.mkBlock (JInt (index b)) (JFloat (timestamp b))
                  (JList (List.map JDict (transactions b)))
                  (JStr (previous_hash b)) (JInt (nonce b)) (JStr (hash b)).

(** The item of a key that may be absent. *)
Definition optional_item (k : string) (o : option json) : list (string * json) :=
  match o with
  | Some v => [(k, v)]
  | None => []
  end.

Definition dynamic_dict (d : BlockDict) : json :=
  JDict (optional_item "index" (option_map JInt (d_index d)) ++
         optional_item "timestamp" (option_map JFloat (d_timestamp d)) ++
         optional_item "transactions"
           (option_map (fun txs => JList (List.map JDict txs)) (d_transactions d)) ++
         optional_item "previous_hash" (option_map JStr (d_previous_hash d)) ++
         optional_item "nonce" (option_map JInt (d_nonce d)) ++
         optional_item "hash" (option_map JStr (d_hash d))).

Definition dynamic_ledger (self : Blockchain) : Dynamic.Blockchain :=
  Dynamic.mkBlockchain (difficulty self) (autosave self) (storage_path self)
                       (List.map dynamic_block (chain self))
                       (List.map JDict (pending_transactions self)).

(** A candidate chain of well-typed block dicts, as JSON. *)
Definition dynamic_chain (raw_chain : list BlockDict) : json :=
  JList (List.map dynamic_dict raw_chain).

(** ** Sample data: a candidate whose genesis block has the hash [5] *)

Definition hash_five : json :=
  JList [ JDict [ ("index", JInt 0); ("timestamp", JFloat (FFinite "1700000000.5"));
                  ("previous_hash", JStr "0"); ("hash", JInt 5) ];
          JDict [ ("index", JInt 1); ("timestamp", JFloat (FFinite "1700000001.25")) ] ].

(** The sample chain of two blocks, as a neighbour sends it. *)
Definition longer_chain : json := dynamic_chain [to_dict genesis_1; to_dict block_1].

(** The sample ledger of one block, without autosave. *)
Definition dynamic_ledger_1 : Dynamic.world :=
  Dynamic.mkWorld (dynamic_ledger ledger_1) ∅.

Definition dynamic_pending (p : pending_entry) : json :=
  match p with
  | PendingList txs => JList (List.map JDict txs)
  | PendingOther => JNull
  end.

(** A typed document as the JSON value it is; [null] stands for the
    values that are neither a list nor a dict. *)
Definition dynamic_file (f : file) : Dynamic.file :=
  match f with
  | NotJson => Dynamic.NotJson
  | JsonFile (DocList raw) => Dynamic.JsonFile (dynamic_chain raw)
  | JsonFile (DocDict chain_key pending_key) =>
      Dynamic.JsonFile
        (JDict (optional_item "chain" (option_map dynamic_chain chain_key) ++
                optional_item "pending_transactions"
                  (option_map dynamic_pending pending_key)))
  | JsonFile DocOther => Dynamic.JsonFile JNull
  end.

Definition dynamic_world (w : world) : Dynamic.world :=
  Dynamic.mkWorld (dynamic_ledger (ledger w)) (dynamic_file <$> files w).

(** ** Vocabulary for the untyped program *)

(** The blocks that [load_chain] deserialises from what is at the storage
    path: none when there is no file, no JSON, neither a list nor a dict,
    or when an element is no dict or lacks [index] or [timestamp]. *)
Definition stored_blocks (f : option Dynamic.file) : option (list Dynamic.Block) :=
  match f with
  | Some (Dynamic.JsonFile (JList l)) =>
      match Dynamic.from_dicts l with
      | Return c => Some c
      | _ => None
      end
  | Some (Dynamic.JsonFile (JDict d)) =>
      match Dynamic.deserialize (Dynamic.get d "chain" (JList [])) with
      | Return c => Some c
      | _ => None
      end
  | _ => None
  end.

(** The pool that comes with them. *)
Definition stored_pool (f : option Dynamic.file) : list json :=
  match f with
  | Some (Dynamic.JsonFile (JDict d)) =>
      match Dynamic.get d "pending_transactions" (JList []) with
      | JList txs => txs
      | _ => []
      end
  | _ => []
  end.






(** The result of a typed call among the untyped ones. *)
Definition result_map {A B : Type} (f : A -> B) (r : result A) : result B :=
  match r with
  | Return a => Return (f a)
  | Raise e => Raise e
  | OutOfFuel => OutOfFuel
  end.

(** * Reading an encoding back

    The vocabulary of the proof that [json.dumps] is one-to-one: the
    characters that end a number or a literal, the kind of value that the
    first character announces, and what it means that a value can be read
    back from the front of a text. *)
















(** * Properties *)

(** ** Strings and digests *)

Local Arguments String.append !s1 s2 : simpl nomatch.
Local Arguments compute_hash : simpl never.
Local Arguments Dynamic.compute_hash : simpl never.
Local Arguments startswith : simpl never.
Local Arguments str_mul : simpl never.

Lemma startswith_spec (s p : string) :
  startswith s p = true <-> exists rest, s = p +:+ rest.
Proof.
  unfold startswith. revert s.
  induction p as [|c p IH]; intros s; simpl.
  - split; [intros _; exists s; reflexivity | intros _; destruct s; reflexivity].
  - destruct s as [|c' s]; simpl.
    + split; [discriminate | intros [r Hr]; discriminate].
    + destruct (Ascii.ascii_dec c c') as [->|Hne].
      * rewrite IH. split; intros [r Hr]; exists r; [rewrite Hr; reflexivity|].
        injection Hr as Hr. exact Hr.
      * split; [discriminate | intros [r Hr]; injection Hr as Hc _; congruence].
Qed.

Lemma length_append (a b : string) :
  String.length (a +:+ b) = (String.length a + String.length b)%nat.
Proof. induction a; simpl; congruence. Qed.

Lemma hex_length (n : nat) (x : Z) : String.length (SHA256.hex n x) = n.
Proof.
  revert x. induction n as [|n IH]; intros x; simpl; [reflexivity|].
  rewrite length_append, IH. simpl. lia.
Qed.

Lemma hexdigest_length (s : string) : String.length (SHA256.hexdigest s) = 64%nat.
Proof.
  unfold SHA256.hexdigest, SHA256.hex_state.
  rewrite !length_append, !hex_length. reflexivity.
Qed.

Lemma compute_hash_nonempty (b : Block) : compute_hash b <> "".
Proof.
  intros H. pose proof (hexdigest_length (block_string b)) as L.
  unfold compute_hash in H. rewrite H in L. discriminate.
Qed.

Lemma str_mul_nonpos (s : string) (n : Z) : n <= 0 -> str_mul s n = "".
Proof. intros H. unfold str_mul. replace (Z.to_nat n) with 0%nat by lia. reflexivity. Qed.

Example sha256_empty :
  SHA256.hexdigest "" = "e3b0c44298fc1c149afbf4c8996fb92427ae41e4649b934ca495991b7852b855".
Proof. vm_compute. reflexivity. Qed.

Example sha256_abc :
  SHA256.hexdigest "abc" = "ba7816bf8f01cfea414140de5dae2223b00361a396177a9cb410ff61f20015ad".
Proof. vm_compute. reflexivity. Qed.

Example sha256_two_blocks :
  SHA256.hexdigest "abcdbcdecdefdefgefghfghighijhijkijkljklmklmnlmnomnopnopq"
  = "248d6a61d20638b8e5c026930c3e6039a33ce45964ff2167f6ecedd419db06c1".
Proof. vm_compute. reflexivity. Qed.

Example dumps_sorts_keys :
  block_string block_1
  = "{" +:+ Json.quoted "index" +:+ ": 1, " +:+ Json.quoted "nonce" +:+ ": 5, "
    +:+ Json.quoted "previous_hash" +:+ ": " +:+ Json.quoted (hash genesis_1) +:+ ", "
    +:+ Json.quoted "timestamp" +:+ ": 1700000001.25, "
    +:+ Json.quoted "transactions" +:+ ": [{" +:+ Json.quoted "amount" +:+ ": 10, "
    +:+ Json.quoted "recipient" +:+ ": " +:+ Json.quoted "Bob" +:+ ", "
    +:+ Json.quoted "sender" +:+ ": " +:+ Json.quoted "Alice" +:+ "}]}".
Proof. vm_compute. reflexivity. Qed.

(** ** The chain validator *)

Lemma leading_zeros_startswith (d : Z) (h : string) :
  startswith h (str_mul "0" d) = true <-> leading_zeros d h.
Proof. apply startswith_spec. Qed.

Lemma check_blocks_true (prefix : string) (c : list Block) (range : list nat) :
  check_blocks prefix c range = true <->
  forall i, In i range ->
    exists current prev,
      nth_error c i = Some current /\ nth_error c (i - 1) = Some prev /\
      index current = Z.of_nat i /\ previous_hash current = hash prev /\
      startswith (compute_hash current) prefix = true /\
      hash current = compute_hash current.
Proof.
  induction range as [|i range IH]; simpl.
  - split; [intros _ i [] | reflexivity].
  - destruct (nth_error c i) as [current|] eqn:Hc;
      [destruct (nth_error c (i - 1)) as [prev|] eqn:Hp|].
    + destruct (Z.eqb_spec (index current) (Z.of_nat i)) as [Hi|Hi]; simpl.
      * destruct (String.eqb_spec (previous_hash current) (hash prev)) as [Hl|Hl]; simpl.
        -- destruct (startswith (compute_hash current) prefix) eqn:Hs; simpl.
           ++ destruct (String.eqb_spec (hash current) (compute_hash current)) as [Hh|Hh]; simpl.
              ** rewrite IH. split.
                 --- intros H j [<-|Hj]; [|auto].
                     exists current, prev. repeat split; assumption.
                 --- intros H j Hj. apply H. auto.
              ** split; [discriminate|]. intros H.
                 destruct (H i) as (cur & prv & E1 & _ & _ & _ & _ & E6); [auto|].
                 rewrite Hc in E1. injection E1 as <-. contradiction.
           ++ split; [discriminate|]. intros H.
              destruct (H i) as (cur & prv & E1 & _ & _ & _ & E5 & _); [auto|].
              rewrite Hc in E1. injection E1 as <-. congruence.
        -- split; [discriminate|]. intros H.
           destruct (H i) as (cur & prv & E1 & E2 & _ & E4 & _); [auto|].
           rewrite Hc in E1. rewrite Hp in E2. injection E1 as <-. injection E2 as <-.
           contradiction.
      * split; [discriminate|]. intros H.
        destruct (H i) as (cur & prv & E1 & _ & E3 & _); [auto|].
        rewrite Hc in E1. injection E1 as <-. contradiction.
    + split; [discriminate|]. intros H.
      destruct (H i) as (cur & prv & _ & E2 & _); [auto|]. rewrite Hp in E2. discriminate.
    + split; [discriminate|]. intros H.
      destruct (H i) as (cur & prv & E1 & _); [auto|]. rewrite Hc in E1. discriminate.
Qed.

(** The validator on a chain that is not empty, in the words of the
    specification. *)
Lemma is_valid_chain_nonempty (self : Blockchain) (g : Block) (c : list Block) :
  is_valid_chain self (Some (g :: c)) = true <-> chain_ok (difficulty self) (g :: c).
Proof.
  unfold is_valid_chain, chain_or, chain_ok, genesis_ok.
  set (prefix := str_mul "0" (difficulty self)).
  destruct (Z.eqb_spec (index g) 0) as [Hi|Hi]; simpl negb; simpl orb.
  2:{ split; [discriminate|]. intros [(g' & E & H & _) _]. simpl in E.
      injection E as <-. contradiction. }
  destruct (String.eqb_spec (previous_hash g) "0") as [Hp|Hp]; simpl negb; cbv iota.
  2:{ split; [discriminate|]. intros [(g' & E & _ & H & _) _]. simpl in E.
      injection E as <-. contradiction. }
  destruct (String.eqb_spec (hash g) "") as [He|He]; simpl orb; cbv iota.
  { split; [discriminate|]. intros [(g' & E & _ & _ & H & _) _]. simpl in E.
    injection E as <-. contradiction. }
  destruct (startswith (hash g) prefix) eqn:Hs; simpl negb; simpl orb; cbv iota.
  2:{ split; [discriminate|]. intros [(g' & E & _ & _ & _ & _ & H) _]. simpl in E.
      injection E as <-. apply leading_zeros_startswith in H. fold prefix in H. congruence. }
  destruct (String.eqb_spec (hash g) (compute_hash g)) as [Hh|Hh]; simpl negb; cbv iota.
  2:{ split; [discriminate|]. intros [(g' & E & _ & _ & _ & H & _) _]. simpl in E.
      injection E as <-. contradiction. }
  rewrite check_blocks_true. split.
  - intros H. split.
    + exists g. repeat split; auto. apply leading_zeros_startswith. exact Hs.
    + intros i prev cur Hpos Hprev Hcur.
      destruct (H i) as (cur' & prev' & E1 & E2 & E3 & E4 & E5 & E6).
      { apply in_seq. assert (i < length (g :: c))%nat as Hlt
          by (apply nth_error_Some; congruence). lia. }
      rewrite Hcur in E1. rewrite Hprev in E2. injection E1 as <-. injection E2 as <-.
      repeat split; auto. apply leading_zeros_startswith. fold prefix. congruence.
  - intros [_ H] i Hin. apply in_seq in Hin.
    destruct (nth_error (g :: c) i) as [cur|] eqn:Hcur.
    2:{ apply nth_error_None in Hcur. lia. }
    destruct (nth_error (g :: c) (i - 1)) as [prev|] eqn:Hprev.
    2:{ apply nth_error_None in Hprev. lia. }
    destruct (H i prev cur) as (E1 & E2 & E3 & E4); [lia|auto|auto|].
    exists cur, prev. repeat split; auto.
    rewrite E3. apply leading_zeros_startswith. exact E4.
Qed.

(** C1. For a chain that is not empty and a difficulty [d >= 0],
    [is_valid_chain] returns true exactly when the first block has index 0,
    previous_hash "0" and a non-empty stored hash that equals its recomputed
    digest and starts with [d] zeros, and every block at a position [i > 0]
    has index [i], has the stored hash of the block before it as
    previous_hash, has a recomputed digest equal to its stored hash, and has
    a stored hash starting with [d] zeros. *)
Theorem is_valid_chain_iff (self : Blockchain) (c : list Block) (d : Z) :
  c <> [] -> 0 <= d -> difficulty self = d ->
  (is_valid_chain self (Some c) = true <->
   (exists g, nth_error c 0 = Some g /\
      index g = 0 /\ previous_hash g = "0" /\ hash g <> "" /\
      hash g = compute_hash g /\ leading_zeros d (hash g)) /\
   (forall i prev cur, (0 < i)%nat ->
      nth_error c (i - 1) = Some prev -> nth_error c i = Some cur ->
      index cur = Z.of_nat i /\ previous_hash cur = hash prev /\
      compute_hash cur = hash cur /\ leading_zeros d (hash cur))).
Proof.
  intros Hne _ <-. destruct c as [|g c]; [contradiction|].
  apply is_valid_chain_nonempty.
Qed.

(** The sample chain is what the code mines. *)
Example init_sample :
  init 13 (FFinite "1700000000.5") "/tmp" 1 false (Some "chain.json") ∅
  = (Return tt, mkWorld ledger_1 ∅).
Proof. vm_compute. reflexivity. Qed.

Lemma is_valid_chain_iff_witness :
  [genesis_1; block_1] <> [] /\ 0 <= 1 /\ difficulty ledger_1 = 1 /\
  is_valid_chain ledger_1 (Some [genesis_1; block_1]) = true.
Proof.
  split; [discriminate|]. split; [lia|]. split; [reflexivity|].
  apply (is_valid_chain_iff ledger_1 [genesis_1; block_1] 1);
    [discriminate | lia | reflexivity |].
  apply (is_valid_chain_nonempty ledger_2). vm_compute. reflexivity.
Defined.

(** An empty list that is passed in is treated like no argument at all. *)
Lemma is_valid_chain_empty_list (self : Blockchain) :
  is_valid_chain self (Some []) = is_valid_chain self None.
Proof. reflexivity. Qed.

(** C2. On the sample ledger, whose own chain is valid, the validator called
    with an explicitly supplied empty chain returns true. *)
Theorem is_valid_chain_empty_supplied :
  is_valid_chain ledger_1 (Some []) = true.
Proof. vm_compute. reflexivity. Qed.

(** A later [load_chain] therefore accepts a file that holds an empty list
    of blocks, and the ledger is left with no block at all. *)
Example load_chain_empty_file :
  load_chain (mkWorld ledger_1 {[ "chain.json" := JsonFile (DocList []) ]})
  = (true, mkWorld (mkBlockchain 1 false "chain.json" [] [])
                   {[ "chain.json" := JsonFile (DocList []) ]}).
Proof. vm_compute. reflexivity. Qed.

(** Saving writes to the disk and leaves the ledger alone. *)
Lemma ledger_after_save (w : world) : ledger (save_chain w) = ledger w.
Proof. reflexivity. Qed.

Lemma ledger_after_autosave (b : bool) (w : world) :
  ledger (if b then save_chain w else w) = ledger w.
Proof. destruct b; reflexivity. Qed.

(** ** Conflict resolution *)

Section Resolve.

Variable self : Blockchain.

Lemma valid_longer_is_ok (c : list Block) (m : nat) :
  (m <? length c)%nat && is_valid_chain self (Some c) = true <->
  (m < length c)%nat /\ chain_ok (difficulty self) c.
Proof.
  rewrite andb_true_iff, Nat.ltb_lt. destruct c as [|g c].
  - simpl. split; intros [H _]; lia.
  - rewrite is_valid_chain_nonempty. reflexivity.
Qed.

Lemma resolve_inv_skip seen nc m raw :
  (forall c', qualifies self raw c' -> (length c' <= m)%nat /\ nc <> None) ->
  resolve_inv self seen (nc, m) -> resolve_inv self (seen ++ [raw]) (nc, m).
Proof.
  intros Hle. unfold resolve_inv. destruct nc as [best|]; simpl.
  - intros [Hm (before & r & after & -> & Hq & Hb & Ha)]. split; [assumption|].
    exists before, r, (after ++ [raw]). rewrite <- app_assoc. simpl.
    split; [reflexivity|]. split; [assumption|]. split; [assumption|].
    intros raw' c' Hin Hq'. apply in_app_iff in Hin as [Hin|[<-|[]]]; eauto.
    destruct (Hle _ Hq') as [Hl _]. lia.
  - intros [Hm Hnone]. split; [assumption|].
    intros raw' c' Hin Hq'. apply in_app_iff in Hin as [Hin|[<-|[]]].
    + exact (Hnone _ _ Hin Hq').
    + destruct (Hle _ Hq') as [_ Hn]. congruence.
Qed.

Lemma resolve_inv_lower_bound seen st :
  resolve_inv self seen st -> (length (chain self) <= snd st)%nat.
Proof.
  unfold resolve_inv. destruct (fst st) as [best|].
  - intros [-> (_ & _ & _ & _ & (_ & _ & H) & _)]. lia.
  - intros [-> _]. lia.
Qed.

Lemma resolve_step_inv seen st raw :
  resolve_inv self seen st -> resolve_inv self (seen ++ [raw]) (resolve_step self st raw).
Proof.
  intros Hinv. pose proof (resolve_inv_lower_bound _ _ Hinv) as Hlow.
  destruct st as [nc m]. simpl in Hlow. unfold resolve_step.
  destruct (from_dicts raw) as [cb| |] eqn:Hraw.
  - destruct ((m <? length cb)%nat && is_valid_chain self (Some cb)) eqn:Hcond.
    + apply valid_longer_is_ok in Hcond as [Hlen Hok].
      assert (qualifies self raw cb) as Hq
          by (split; [assumption|split; [assumption|lia]]).
      unfold resolve_inv in *; simpl in *. split; [reflexivity|].
      exists seen, raw, []. split; [reflexivity|]. split; [assumption|].
      split; [|intros ? ? []].
      intros raw' c' Hin Hq'. destruct nc as [best|].
      * destruct Hinv as [Hm (before & r & after & -> & Hqb & Hb & Ha)]. subst m.
        apply in_app_iff in Hin as [Hin|[<-|Hin]].
        -- specialize (Hb _ _ Hin Hq'). lia.
        -- destruct Hqb as (E1 & _), Hq' as (E2 & _). rewrite E1 in E2.
           injection E2 as <-. lia.
        -- specialize (Ha _ _ Hin Hq'). lia.
      * destruct Hinv as [_ Hnone]. destruct (Hnone _ _ Hin Hq').
    + apply resolve_inv_skip; [|assumption].
      intros c' (E & Hok & Hlen). rewrite Hraw in E. injection E as <-.
      destruct (Nat.le_gt_cases (length cb) m) as [Hle|Hlt].
      * split; [assumption|]. intros ->. destruct Hinv as [Hm _]. simpl in Hm. lia.
      * assert ((m <? length cb)%nat && is_valid_chain self (Some cb) = true) as Hc
            by (apply valid_longer_is_ok; auto).
        congruence.
  - apply resolve_inv_skip; [|assumption]. intros c' (E & _). congruence.
  - apply resolve_inv_skip; [|assumption]. intros c' (E & _). congruence.
Qed.

Lemma resolve_loop_inv rest : forall seen st,
  resolve_inv self seen st ->
  resolve_inv self (seen ++ rest) (fold_left (resolve_step self) rest st).
Proof.
  induction rest as [|raw rest IH]; intros seen st Hinv; simpl.
  - rewrite app_nil_r. exact Hinv.
  - replace (seen ++ raw :: rest) with ((seen ++ [raw]) ++ rest)
      by (rewrite <- app_assoc; reflexivity).
    apply IH, resolve_step_inv, Hinv.
Qed.

End Resolve.

(** The two ways [resolve_conflicts] ends. *)
Lemma resolve_conflicts_cases (neighbour_chains : list (list BlockDict)) (w : world) :
  let self := ledger w in
  (resolve_conflicts neighbour_chains w = (false, w) /\
   forall raw c, In raw neighbour_chains -> ~ qualifies self raw c) \/
  (exists best before raw after w',
     resolve_conflicts neighbour_chains w = (true, w') /\
     ledger w' = set_chain self best /\
     neighbour_chains = before ++ raw :: after /\
     qualifies self raw best /\
     (forall raw' c', In raw' before -> qualifies self raw' c' ->
        (length c' < length best)%nat) /\
     (forall raw' c', In raw' after -> qualifies self raw' c' ->
        (length c' <= length best)%nat)).
Proof.
  intros self. unfold resolve_conflicts. fold self.
  pose proof (resolve_loop_inv self neighbour_chains [] (None, length (chain self))) as Hinv.
  simpl app in Hinv.
  destruct (fold_left (resolve_step self) neighbour_chains (None, length (chain self)))
    as [nc m].
  assert (resolve_inv self neighbour_chains (nc, m)) as H.
  { apply Hinv. split; [reflexivity|]. intros raw c []. }
  clear Hinv. unfold resolve_inv in H. simpl in H.
  destruct nc as [best|].
  - destruct H as [-> (before & raw & after & Heq & Hq & Hb & Ha)].
    destruct best as [|b best].
    { destruct Hq as (_ & _ & Hq). simpl in Hq. lia. }
    right. eexists (b :: best), before, raw, after, _.
    split; [reflexivity|]. rewrite ledger_after_autosave. auto.
  - left. destruct H as [_ Hnone]. auto.
Qed.

(** On candidates that are lists of well-typed block dicts,
    [resolve_conflicts] returns true exactly when some candidate
    deserialises to a valid chain strictly longer than the local one.  It
    then adopts such a candidate: none that qualifies is longer, and those
    that come before it in the input are strictly shorter; nothing else of
    the ledger changes.  Candidates no longer than the local chain never
    replace it, and when the function returns false the ledger and the disk
    are as they were. *)
Lemma resolve_conflicts_well_typed (neighbour_chains : list (list BlockDict)) (w : world) :
  let self := ledger w in
  let replaced := fst (resolve_conflicts neighbour_chains w) in
  let w' := snd (resolve_conflicts neighbour_chains w) in
  (replaced = true <->
   exists raw c, In raw neighbour_chains /\ qualifies self raw c) /\
  (replaced = true ->
   ledger w' = set_chain self (chain (ledger w')) /\
   exists before raw after,
     neighbour_chains = before ++ raw :: after /\
     qualifies self raw (chain (ledger w')) /\
     (forall raw' c', In raw' neighbour_chains -> qualifies self raw' c' ->
        (length c' <= length (chain (ledger w')))%nat) /\
     (forall raw' c', In raw' before -> qualifies self raw' c' ->
        (length c' < length (chain (ledger w')))%nat)) /\
  ((forall raw c, In raw neighbour_chains -> from_dicts raw = Return c ->
      (length c <= length (chain self))%nat) -> replaced = false) /\
  (replaced = false -> w' = w).
Proof.
  intros self replaced w'. subst self replaced w'.
  pose proof (resolve_conflicts_cases neighbour_chains w) as H. cbv zeta in H.
  destruct H
    as [[Hres Hnone] | (best & before & raw & after & w' & Hres & Hl & Heq & Hq & Hb & Ha)];
    rewrite Hres; cbn [fst snd].
  - repeat split; try discriminate.
    intros (raw & c & Hin & Hq). destruct (Hnone _ _ Hin Hq).
  - assert (In raw neighbour_chains) as Hin
        by (rewrite Heq; apply in_app_iff; right; left; reflexivity).
    rewrite Hl. cbn [chain set_chain]. split; [|split; [|split]].
    + split; [intros _; exists raw, best; auto | reflexivity].
    + intros _. split; [reflexivity|]. exists before, raw, after.
      split; [assumption|]. split; [assumption|]. split; [|assumption].
      intros raw' c' Hin' Hq'. rewrite Heq in Hin'.
      apply in_app_iff in Hin' as [Hin'|[<-|Hin']].
      * specialize (Hb _ _ Hin' Hq'). lia.
      * destruct Hq as (E1 & _), Hq' as (E2 & _). rewrite E1 in E2.
        injection E2 as <-. lia.
      * exact (Ha _ _ Hin' Hq').
    + intros Hshort. exfalso. destruct Hq as (E & _ & Hlen).
      specialize (Hshort raw best Hin E). lia.
    + discriminate.
Qed.

(** The test [test_conflict_resolution], on the sample data. *)
Example resolve_conflicts_sample :
  resolve_conflicts [[to_dict genesis_1; to_dict block_1]] (mkWorld ledger_1 ∅)
  = (true, mkWorld ledger_2 ∅).
Proof. vm_compute. reflexivity. Qed.

(** ** Proof of work *)

Lemma set_nonce_set_nonce (b : Block) (n m : Z) :
  set_nonce (set_nonce b n) m = set_nonce b m.
Proof. reflexivity. Qed.

Lemma compute_hash_ignores_hash (b : Block) (h : string) :
  compute_hash (set_hash b h) = compute_hash b.
Proof. reflexivity. Qed.

Lemma compute_hash_same_contents (b b' : Block) (n : Z) :
  same_contents b b' -> compute_hash (set_nonce b n) = compute_hash (set_nonce b' n).
Proof.
  intros (E1 & E2 & E3 & E4). unfold compute_hash, block_string. simpl.
  rewrite E1, E2, E3, E4. reflexivity.
Qed.

(** The search does not look at the nonce and the hash the block comes with. *)
Lemma pow_loop_same_contents (prefix : string) (b b' : Block) :
  same_contents b b' ->
  forall (fuel : nat) (start : Z),
    pow_loop fuel prefix b start = pow_loop fuel prefix b' start.
Proof.
  intros (E1 & E2 & E3 & E4) fuel.
  induction fuel as [|fuel IH]; intros start; simpl; [reflexivity|].
  assert (compute_hash (set_nonce b start) = compute_hash (set_nonce b' start)) as ->
      by (apply compute_hash_same_contents; repeat split; assumption).
  destruct (startswith _ prefix).
  - unfold set_hash, set_nonce; simpl. rewrite E1, E2, E3, E4. reflexivity.
  - assert (forall f n s, pow_loop f prefix (set_nonce b n) s = pow_loop f prefix b s) as Hb.
    { intros f n s. destruct f; reflexivity. }
    assert (forall f n s, pow_loop f prefix (set_nonce b' n) s = pow_loop f prefix b' s) as Hb'.
    { intros f n s. destruct f; reflexivity. }
    rewrite Hb, Hb'. apply IH.
Qed.

Lemma pow_loop_set_nonce (prefix : string) (b : Block) (n : Z) (fuel : nat) (start : Z) :
  pow_loop fuel prefix (set_nonce b n) start = pow_loop fuel prefix b start.
Proof. apply pow_loop_same_contents. repeat split. Qed.

(** The search from [start] finds the first solution at or after it. *)
Lemma pow_loop_finds (prefix : string) (b : Block) (k : nat) :
  forall (start : Z) (fuel : nat),
    startswith (compute_hash (set_nonce b (start + Z.of_nat k))) prefix = true ->
    (forall j, start <= j < start + Z.of_nat k ->
       startswith (compute_hash (set_nonce b j)) prefix = false) ->
    (k < fuel)%nat ->
    pow_loop fuel prefix b start = Return (mined b (start + Z.of_nat k)).
Proof.
  induction k as [|k IH]; intros start fuel Hsol Hnone Hfuel.
  - destruct fuel as [|fuel]; [lia|]. simpl.
    replace (start + Z.of_nat 0) with start in * by lia.
    rewrite Hsol. reflexivity.
  - destruct fuel as [|fuel]; [lia|]. simpl.
    rewrite (Hnone start) by lia. rewrite pow_loop_set_nonce.
    replace (start + Z.of_nat (S k)) with (start + 1 + Z.of_nat k) in * by lia.
    apply IH; auto; try lia.
    intros j Hj. apply Hnone. lia.
Qed.

Lemma pow_loop_runs_out (prefix : string) (b : Block) (fuel : nat) :
  forall (start : Z),
    (forall j, start <= j < start + Z.of_nat fuel ->
       startswith (compute_hash (set_nonce b j)) prefix = false) ->
    pow_loop fuel prefix b start = OutOfFuel.
Proof.
  induction fuel as [|fuel IH]; intros start Hnone; simpl; [reflexivity|].
  rewrite (Hnone start) by lia. rewrite pow_loop_set_nonce.
  apply IH. intros j Hj. apply Hnone. lia.
Qed.

(** Below a solution there is a least one. *)
Lemma least_solution (P : Z -> bool) (n : nat) :
  P (Z.of_nat n) = true ->
  exists m, (m <= n)%nat /\ P (Z.of_nat m) = true /\
            forall j, 0 <= j < Z.of_nat m -> P j = false.
Proof.
  induction n as [n IH] using (well_founded_induction lt_wf). intros Hn.
  destruct (List.find (fun j => P (Z.of_nat j)) (List.seq 0 n)) as [j|] eqn:Hfind.
  - apply find_some in Hfind as [Hin Hj]. apply in_seq in Hin.
    destruct (IH j ltac:(lia) Hj) as (m & Hm & Hs & Hl).
    exists m. repeat split; auto. lia.
  - exists n. repeat split; auto. intros j Hj.
    pose proof (find_none _ _ Hfind (Z.to_nat j)) as Hnone. simpl in Hnone.
    rewrite Z2Nat.id in Hnone by lia. apply Hnone. apply in_seq. lia.
Qed.

Lemma pow_loop_returns (prefix : string) (b b' : Block) (fuel : nat) :
  forall (start : Z),
    pow_loop fuel prefix b start = Return b' ->
    exists m, start <= m /\ b' = mined b m /\
              startswith (compute_hash (set_nonce b m)) prefix = true.
Proof.
  induction fuel as [|fuel IH]; intros start; simpl; [discriminate|].
  destruct (startswith (compute_hash (set_nonce b start)) prefix) eqn:Hs.
  - intros [= <-]. exists start. repeat split; [lia | assumption].
  - rewrite pow_loop_set_nonce. intros H. apply IH in H as (m & Hm & Hb & Hsm).
    exists m. repeat split; [lia | assumption | assumption].
Qed.

(** The search from 0, given that some nonce [n >= 0] is a solution. *)
Lemma pow_search (prefix : string) (b : Block) (n : Z) :
  0 <= n -> startswith (compute_hash (set_nonce b n)) prefix = true ->
  exists m,
    0 <= m <= n /\
    startswith (compute_hash (set_nonce b m)) prefix = true /\
    (forall j, 0 <= j < m -> startswith (compute_hash (set_nonce b j)) prefix = false) /\
    (forall fuel, (Z.to_nat m < fuel)%nat -> pow_loop fuel prefix b 0 = Return (mined b m)) /\
    (forall fuel, (fuel <= Z.to_nat m)%nat -> pow_loop fuel prefix b 0 = OutOfFuel).
Proof.
  intros Hn Hsol.
  pose (P := fun j => startswith (compute_hash (set_nonce b j)) prefix).
  destruct (least_solution P (Z.to_nat n)) as (m & Hm & Hs & Hl).
  { unfold P. rewrite Z2Nat.id by lia. exact Hsol. }
  unfold P in *. exists (Z.of_nat m). split; [lia|]. split; [exact Hs|].
  split; [exact Hl|]. split.
  - intros fuel Hfuel. rewrite Nat2Z.id in Hfuel.
    apply (pow_loop_finds prefix b m 0 fuel); auto.
  - intros fuel Hfuel. apply pow_loop_runs_out. intros j Hj. apply Hl. lia.
Qed.

(** C4. If some nonce [n >= 0] gives a digest with [d] leading zeros, then
    [proof_of_work] returns (as soon as it is given more rounds than the
    least such nonce, and not before) the block with its nonce set to the
    smallest natural number whose digest starts with [d] zeros and its hash
    set to that digest; and the result is the same for any block with the
    same index, timestamp, transactions and previous_hash, whatever nonce
    and hash it comes with. *)
Theorem proof_of_work_least (self : Blockchain) (b : Block) (d n : Z) :
  difficulty self = d -> 0 <= n -> solves d b n ->
  exists m,
    0 <= m <= n /\ solves d b m /\ (forall j, 0 <= j < m -> ~ solves d b j) /\
    (forall fuel, (Z.to_nat m < fuel)%nat ->
       proof_of_work fuel self b = Return (mined b m)) /\
    (forall fuel, (fuel <= Z.to_nat m)%nat -> proof_of_work fuel self b = OutOfFuel) /\
    nonce (mined b m) = m /\ hash (mined b m) = compute_hash (mined b m) /\
    (forall b' fuel, same_contents b b' ->
       proof_of_work fuel self b' = proof_of_work fuel self b).
Proof.
  intros <- Hn Hsol. unfold solves in *. apply leading_zeros_startswith in Hsol.
  destruct (pow_search _ b n Hn Hsol) as (m & Hm & Hs & Hl & Hret & Hout).
  exists m. split; [exact Hm|]. split; [apply leading_zeros_startswith; exact Hs|].
  split.
  { intros j Hj Hc. apply leading_zeros_startswith in Hc.
    rewrite (Hl j Hj) in Hc. discriminate. }
  split; [exact Hret|]. split; [exact Hout|].
  split; [reflexivity|]. split; [reflexivity|].
  intros b' fuel Hsame. unfold proof_of_work. symmetry.
  apply pow_loop_same_contents. exact Hsame.
Qed.

Lemma proof_of_work_least_witness :
  difficulty ledger_1 = 1 /\ 0 <= 12 /\ solves 1 genesis_candidate 12 /\
  exists m,
    0 <= m <= 12 /\ solves 1 genesis_candidate m /\
    (forall j, 0 <= j < m -> ~ solves 1 genesis_candidate j) /\
    (forall fuel, (Z.to_nat m < fuel)%nat ->
       proof_of_work fuel ledger_1 genesis_candidate = Return (mined genesis_candidate m)) /\
    (forall fuel, (fuel <= Z.to_nat m)%nat ->
       proof_of_work fuel ledger_1 genesis_candidate = OutOfFuel) /\
    nonce (mined genesis_candidate m) = m /\
    hash (mined genesis_candidate m) = compute_hash (mined genesis_candidate m) /\
    (forall b' fuel, same_contents genesis_candidate b' ->
       proof_of_work fuel ledger_1 b' = proof_of_work fuel ledger_1 genesis_candidate).
Proof.
  assert (solves 1 genesis_candidate 12) as Hsol
      by (apply leading_zeros_startswith; vm_compute; reflexivity).
  split; [reflexivity|]. split; [lia|]. split; [exact Hsol|].
  apply (proof_of_work_least ledger_1 genesis_candidate 1 12); [reflexivity | lia | exact Hsol].
Defined.

(** ** Mining *)

Lemma list_last_app {A : Type} (l : list A) (a : A) : list_last (l ++ [a]) = Some a.
Proof.
  induction l as [|x l IH]; [reflexivity|]. simpl.
  destruct (l ++ [a]) eqn:E; [destruct l; discriminate|]. exact IH.
Qed.

(** What a call of [mine_pending_transactions] that returns has done. *)
Lemma mine_returns_inv (fuel : nat) (now : pyfloat) (w w' : world) (block : Block) :
  mine_pending_transactions fuel now w = (Return block, w') ->
  exists last m,
    pending_transactions (ledger w) <> [] /\
    list_last (chain (ledger w)) = Some last /\
    block = mined (mkBlock (Z.of_nat (length (chain (ledger w)))) now
                           (pending_transactions (ledger w)) (hash last) 0 "") m /\
    0 <= m /\
    startswith (hash block) (str_mul "0" (difficulty (ledger w))) = true /\
    ledger w' = set_pending (set_chain (ledger w) (chain (ledger w) ++ [block])) [].
Proof.
  unfold mine_pending_transactions.
  destruct (pending_transactions (ledger w)) as [|t ts] eqn:Hp; [discriminate|].
  destruct (list_last (chain (ledger w))) as [last|] eqn:Hl; [|discriminate].
  destruct (proof_of_work _ _ _) as [blk| |] eqn:Hpow; try discriminate.
  intros [= -> <-]. unfold proof_of_work in Hpow.
  apply pow_loop_returns in Hpow as (m & Hm & -> & Hs).
  exists last, m. rewrite ledger_after_autosave. simpl.
  repeat split; auto; try discriminate.
Qed.

(** C6. When the pending pool is not empty and [mine_pending_transactions]
    returns, the pool is empty afterwards, the chain is one block longer,
    and the block appended (the one returned) has the previous length of
    the chain as index, the stored hash of the previous last block as
    previous_hash, and the former pool, in order, as transactions. *)
Theorem mine_pending_transactions_success
    (fuel : nat) (now : pyfloat) (w w' : world) (block : Block) :
  pending_transactions (ledger w) <> [] ->
  mine_pending_transactions fuel now w = (Return block, w') ->
  pending_transactions (ledger w') = [] /\
  length (chain (ledger w')) = S (length (chain (ledger w))) /\
  chain (ledger w') = chain (ledger w) ++ [block] /\
  index block = Z.of_nat (length (chain (ledger w))) /\
  (exists last, list_last (chain (ledger w)) = Some last /\
                previous_hash block = hash last) /\
  transactions block = pending_transactions (ledger w).
Proof.
  intros _ H. apply mine_returns_inv in H as (last & m & _ & Hl & -> & _ & _ & ->).
  simpl. rewrite length_app. simpl.
  split; [reflexivity|]. split; [lia|]. split; [reflexivity|].
  split; [reflexivity|]. split; [|reflexivity].
  exists last. split; [assumption | reflexivity].
Qed.

Lemma mine_pending_transactions_success_witness :
  pending_transactions (ledger (mkWorld ledger_1_pending ∅)) <> [] /\
  mine_pending_transactions 6 (FFinite "1700000001.25") (mkWorld ledger_1_pending ∅)
  = (Return block_1, mkWorld ledger_2 ∅) /\
  pending_transactions ledger_2 = [] /\
  length (chain ledger_2) = S (length (chain ledger_1_pending)) /\
  chain ledger_2 = chain ledger_1_pending ++ [block_1] /\
  index block_1 = Z.of_nat (length (chain ledger_1_pending)) /\
  (exists last, list_last (chain ledger_1_pending) = Some last /\
                previous_hash block_1 = hash last) /\
  transactions block_1 = pending_transactions ledger_1_pending.
Proof.
  assert (mine_pending_transactions 6 (FFinite "1700000001.25")
            (mkWorld ledger_1_pending ∅) = (Return block_1, mkWorld ledger_2 ∅)) as Hrun
      by (vm_compute; reflexivity).
  split; [discriminate|]. split; [exact Hrun|].
  apply (mine_pending_transactions_success 6 (FFinite "1700000001.25")
           (mkWorld ledger_1_pending ∅) (mkWorld ledger_2 ∅) block_1);
    [discriminate | exact Hrun].
Defined.

(** Mining returns whenever the chain has a block, the pool has a
    transaction, and the puzzle has a solution. *)
Lemma mine_pending_transactions_returns (now : pyfloat) (w : world) (last : Block) (n : Z) :
  pending_transactions (ledger w) <> [] ->
  list_last (chain (ledger w)) = Some last ->
  0 <= n ->
  solves (difficulty (ledger w))
         (mkBlock (Z.of_nat (length (chain (ledger w)))) now
                  (pending_transactions (ledger w)) (hash last) 0 "") n ->
  exists block w',
    mine_pending_transactions (S (Z.to_nat n)) now w = (Return block, w').
Proof.
  intros Hp Hl Hn Hsol. apply leading_zeros_startswith in Hsol.
  destruct (pow_search _ _ n Hn Hsol) as (m & Hm & _ & _ & Hret & _).
  unfold mine_pending_transactions, proof_of_work.
  destruct (pending_transactions (ledger w)) as [|t ts] eqn:E; [contradiction|].
  rewrite Hl, (Hret (S (Z.to_nat n))) by lia. eauto.
Qed.

(** C7. With an empty pending pool, [mine_pending_transactions] raises
    [ValueError("No transactions to mine")]; no block is made, and the
    chain, the pool and the disk stay as they were. *)
Theorem mine_pending_transactions_empty_pool (fuel : nat) (now : pyfloat) (w : world) :
  pending_transactions (ledger w) = [] ->
  mine_pending_transactions fuel now w = (Raise (ValueError "No transactions to mine"), w).
Proof. intros H. unfold mine_pending_transactions. rewrite H. reflexivity. Qed.

Lemma mine_pending_transactions_empty_pool_witness :
  pending_transactions (ledger (mkWorld ledger_1 ∅)) = [] /\
  mine_pending_transactions 100 (FFinite "1700000001.25") (mkWorld ledger_1 ∅)
  = (Raise (ValueError "No transactions to mine"), mkWorld ledger_1 ∅).
Proof.
  split; [reflexivity|].
  apply (mine_pending_transactions_empty_pool 100 (FFinite "1700000001.25")
           (mkWorld ledger_1 ∅)).
  reflexivity.
Defined.

(** ** Admission of transactions *)

Lemma dict_get_has_key (t : transaction) (k : string) :
  has_key t k <-> exists v, dict_get t k = Some v.
Proof.
  unfold has_key, dict_keys. induction t as [|[k' v] t IH]; simpl.
  - split; [intros [] | intros [v Hv]; discriminate].
  - destruct (String.eqb_spec k k') as [->|Hne].
    + split; [intros _; exists v; reflexivity | intros _; left; reflexivity].
    + rewrite <- IH. split; [intros [E|H]; [congruence|exact H] | intros H; right; exact H].
Qed.

Lemma existsb_key (t : transaction) (k : string) :
  existsb (String.eqb k) (dict_keys t) = true <-> has_key t k.
Proof.
  unfold has_key. rewrite existsb_exists. split.
  - intros (x & Hin & E). apply String.eqb_eq in E. subst x. exact Hin.
  - intros Hin. exists k. split; [exact Hin | apply String.eqb_refl].
Qed.

Lemma no_missing_field (t : transaction) :
  List.filter (fun k => negb (existsb (String.eqb k) (dict_keys t))) required_fields = []
  <-> has_key t "sender" /\ has_key t "recipient" /\ has_key t "amount".
Proof.
  rewrite <- !existsb_key. unfold required_fields. cbn [List.filter].
  destruct (existsb (String.eqb "sender") (dict_keys t)),
           (existsb (String.eqb "recipient") (dict_keys t)),
           (existsb (String.eqb "amount") (dict_keys t)); cbn;
    split; try discriminate; auto; intros (? & ? & ?); discriminate.
Qed.

(** When [validate_transaction] accepts: the three keys are there, and the
    amount is an [int] or a [float] for which [amount <= 0] is false. *)
Lemma validate_transaction_accepts (t : transaction) :
  validate_transaction t = Return tt <->
  has_key t "sender" /\ has_key t "recipient" /\ has_key t "amount" /\
  exists amount, dict_get t "amount" = Some amount /\
                 is_int_or_float amount = true /\ le_zero amount = false.
Proof.
  unfold validate_transaction.
  destruct (List.filter _ required_fields) as [|k ks] eqn:Hmiss.
  - apply no_missing_field in Hmiss as (Hs & Hr & Ha).
    destruct (proj1 (dict_get_has_key t "amount") Ha) as [amount Hget]. rewrite Hget.
    destruct (is_int_or_float amount) eqn:Hnum; simpl negb; simpl orb.
    + destruct (le_zero amount) eqn:Hle.
      * split; [discriminate|]. intros (_ & _ & _ & a & E & _ & Hl). congruence.
      * split; [|reflexivity]. intros _. repeat split; auto. exists amount. auto.
    + split; [discriminate|]. intros (_ & _ & _ & a & E & Hn & _). congruence.
  - split; [discriminate|]. intros (Hs & Hr & Ha & _).
    assert (k :: ks = []) as E; [|discriminate].
    rewrite <- Hmiss. apply no_missing_field. auto.
Qed.

(** [validate_transaction] returns or raises [ValueError], nothing else. *)
Lemma validate_transaction_outcomes (t : transaction) :
  validate_transaction t = Return tt \/ exists msg, validate_transaction t = Raise (ValueError msg).
Proof.
  unfold validate_transaction.
  destruct (List.filter _ required_fields) as [|k ks] eqn:Hmiss; [|eauto].
  apply no_missing_field in Hmiss as (Hs & Hr & Ha).
  destruct (proj1 (dict_get_has_key t "amount") Ha) as [amount Hget]. rewrite Hget.
  destruct (negb (is_int_or_float amount) || le_zero amount); eauto.
Qed.

(** Apart from NaN, [amount <= 0] is false exactly on the positive numbers. *)
Lemma le_zero_positive (v : json) :
  v <> JFloat FNan ->
  (is_int_or_float v = true /\ le_zero v = false <-> positive_number v = true).
Proof.
  intros Hnan. destruct v as [ |b|z|f|s0|l|d0]; simpl;
    try (split; [intros [? ?]; discriminate | discriminate]).
  - destruct b; simpl; split; auto; intros [_ H]; discriminate.
  - destruct (Z.leb_spec z 0), (Z.ltb_spec 0 z); split; auto; try lia;
      try discriminate; intros [_ H]; discriminate.
  - destruct f as [ |negative|r]; [contradiction| |].
    + destruct negative; simpl; split; auto; intros [_ H]; discriminate.
    + destruct (String.prefix "-" r), (String.eqb r "0.0"); simpl; split; auto;
        intros [_ H]; discriminate.
Qed.

(** The behaviour of [add_transaction] on every transaction whose amount is
    not NaN: a [ValueError] exactly when a mandatory key is missing or the
    amount is not a positive number, and then nothing changes; otherwise
    the transaction goes to the end of the pool and the chain is as before. *)
Lemma add_transaction_spec (t : transaction) (w : world) :
  dict_get t "amount" <> Some (JFloat FNan) ->
  ((exists msg, add_transaction t w = (Raise (ValueError msg), w)) /\
   ~ well_formed_transaction t) \/
  (well_formed_transaction t /\
   fst (add_transaction t w) = Return tt /\
   pending_transactions (ledger (snd (add_transaction t w)))
   = pending_transactions (ledger w) ++ [t] /\
   chain (ledger (snd (add_transaction t w))) = chain (ledger w)).
Proof.
  intros Hnan. unfold add_transaction.
  destruct (validate_transaction_outcomes t) as [Hok|[msg Hraise]].
  - right. rewrite Hok. cbv zeta. simpl fst. simpl snd.
    rewrite !ledger_after_autosave. simpl.
    apply validate_transaction_accepts in Hok as (H1 & H2 & H3 & a & Hget & Hnum & Hle).
    repeat split; auto. exists a. split; [assumption|].
    apply le_zero_positive; [congruence | auto].
  - left. rewrite Hraise. split; [eauto|].
    intros (H1 & H2 & H3 & a & Hget & Hpos).
    assert (validate_transaction t = Return tt) as Hok; [|congruence].
    apply validate_transaction_accepts. repeat split; auto. exists a.
    split; [assumption|]. apply le_zero_positive; [congruence | assumption].
Qed.

(** C8. A payment whose amount is NaN has no positive amount, and
    [add_transaction] lets it in: the call returns and the payment is in the
    pending pool. *)
Theorem add_transaction_accepts_nan :
  ~ well_formed_transaction nan_payment /\
  add_transaction nan_payment (mkWorld ledger_1 ∅)
  = (Return tt, mkWorld (mkBlockchain 1 false "chain.json" [genesis_1] [nan_payment]) ∅).
Proof.
  split; [|vm_compute; reflexivity].
  intros (_ & _ & _ & a & Hget & Hpos). vm_compute in Hget.
  injection Hget as <-. discriminate.
Qed.

(** ** Persistence *)

Lemma from_dict_to_dict (b : Block) : from_dict (to_dict b) = Return b.
Proof. destruct b; reflexivity. Qed.

Lemma from_dicts_to_dicts (c : list Block) : from_dicts (List.map to_dict c) = Return c.
Proof.
  induction c as [|b c IH]; [reflexivity|]. cbn [List.map from_dicts].
  rewrite from_dict_to_dict, IH. reflexivity.
Qed.

(** On its own chain the validator says what the specification asks. *)
Lemma is_valid_chain_own (self : Blockchain) :
  is_valid_chain self None = true <-> chain_ok (difficulty self) (chain self).
Proof.
  destruct (chain self) as [|g c] eqn:E.
  - unfold is_valid_chain, chain_or. rewrite E. split; [discriminate|].
    intros [(g & Hg & _) _]. discriminate.
  - rewrite <- is_valid_chain_nonempty.
    unfold is_valid_chain, chain_or. rewrite E. reflexivity.
Qed.

Lemma is_valid_chain_supplied (self : Blockchain) (c : list Block) :
  c <> [] -> (is_valid_chain self (Some c) = true <-> chain_ok (difficulty self) c).
Proof. destruct c as [|g c]; [contradiction|]. intros _. apply is_valid_chain_nonempty. Qed.

Lemma chain_ok_nonempty (d : Z) (c : list Block) : chain_ok d c -> c <> [].
Proof. intros [(g & Hg & _) _] ->. discriminate. Qed.

(** C9. When the chain of a ledger is valid at its difficulty, [save_chain]
    followed by [load_chain] on the same path (by the same ledger object or
    by any other of the same difficulty) returns true, and the chain and
    the pending pool loaded are those that were saved. *)
Theorem save_then_load (w : world) (loader : Blockchain) :
  is_valid_chain (ledger w) None = true ->
  difficulty loader = difficulty (ledger w) ->
  storage_path loader = storage_path (ledger w) ->
  let disk_after := files (save_chain w) in
  fst (load_chain (mkWorld loader disk_after)) = true /\
  chain (ledger (snd (load_chain (mkWorld loader disk_after)))) = chain (ledger w) /\
  pending_transactions (ledger (snd (load_chain (mkWorld loader disk_after))))
  = pending_transactions (ledger w) /\
  fst (load_chain (save_chain w)) = true /\
  ledger (snd (load_chain (save_chain w))) = ledger w.
Proof.
  intros Hvalid Hd Hp. apply is_valid_chain_own in Hvalid.
  pose proof (chain_ok_nonempty _ _ Hvalid) as Hne.
  assert (forall l : Blockchain,
            difficulty l = difficulty (ledger w) ->
            storage_path l = storage_path (ledger w) ->
            load_chain (mkWorld l (files (save_chain w)))
            = (true, mkWorld (set_pending (set_chain l (chain (ledger w)))
                                          (pending_transactions (ledger w)))
                             (files (save_chain w)))) as Hload.
  { intros l Hdl Hpl. unfold load_chain. cbn [ledger files save_chain].
    rewrite Hpl, lookup_insert_eq. cbn [get_default].
    rewrite from_dicts_to_dicts.
    assert (is_valid_chain l (Some (chain (ledger w))) = true) as ->; [|reflexivity].
    apply is_valid_chain_supplied; [exact Hne|]. rewrite Hdl. exact Hvalid. }
  cbv zeta. rewrite (Hload loader Hd Hp). cbn [fst snd ledger].
  split; [reflexivity|]. split; [reflexivity|]. split; [reflexivity|].
  assert (load_chain (save_chain w)
          = load_chain (mkWorld (ledger w) (files (save_chain w)))) as -> by reflexivity.
  rewrite (Hload (ledger w) eq_refl eq_refl). cbn [fst snd ledger].
  split; [reflexivity|]. destruct (ledger w); reflexivity.
Qed.

Lemma save_then_load_witness :
  is_valid_chain (ledger (mkWorld ledger_1_pending ∅)) None = true /\
  difficulty (mkBlockchain 1 true "chain.json" [] []) = difficulty ledger_1_pending /\
  storage_path (mkBlockchain 1 true "chain.json" [] []) = storage_path ledger_1_pending /\
  fst (load_chain (mkWorld (mkBlockchain 1 true "chain.json" [] [])
                           (files (save_chain (mkWorld ledger_1_pending ∅))))) = true /\
  chain (ledger (snd (load_chain (mkWorld (mkBlockchain 1 true "chain.json" [] [])
                           (files (save_chain (mkWorld ledger_1_pending ∅)))))))
  = [genesis_1].
Proof.
  assert (is_valid_chain (ledger (mkWorld ledger_1_pending ∅)) None = true) as Hv
      by (vm_compute; reflexivity).
  split; [exact Hv|]. split; [reflexivity|]. split; [reflexivity|].
  destruct (save_then_load (mkWorld ledger_1_pending ∅)
              (mkBlockchain 1 true "chain.json" [] []) Hv eq_refl eq_refl)
    as (H1 & H2 & _).
  split; [exact H1 | exact H2].
Defined.

(** ** The ledger stays valid *)

Lemma chain_ok_genesis (d : Z) (b : Block) (m : Z) :
  index b = 0 -> previous_hash b = "0" ->
  startswith (compute_hash (set_nonce b m)) (str_mul "0" d) = true ->
  chain_ok d [mined b m].
Proof.
  intros Hi Hp Hs. split.
  - exists (mined b m). split; [reflexivity|]. unfold genesis_ok. simpl.
    split; [assumption|]. split; [assumption|].
    split; [apply compute_hash_nonempty|]. split; [reflexivity|].
    apply leading_zeros_startswith. exact Hs.
  - intros i prev cur Hpos _ Hcur. destruct i as [|[|i]]; [lia| |]; discriminate.
Qed.

Lemma list_last_nth_error {A : Type} (l : list A) (a : A) :
  list_last l = Some a -> nth_error l (length l - 1) = Some a.
Proof.
  induction l as [|x l IH]; [discriminate|]. simpl.
  destruct l as [|y l]; [intros [= ->]; reflexivity|].
  intros H. specialize (IH H). simpl in *. rewrite Nat.sub_0_r in *. exact IH.
Qed.

Lemma chain_ok_append (d : Z) (c : list Block) (last block : Block) :
  chain_ok d c -> list_last c = Some last ->
  index block = Z.of_nat (length c) -> previous_hash block = hash last ->
  hash block = compute_hash block -> startswith (hash block) (str_mul "0" d) = true ->
  chain_ok d (c ++ [block]).
Proof.
  intros [(g & Hg & Hgok) Hsucc] Hlast Hi Hp Hh Hs.
  apply list_last_nth_error in Hlast.
  assert (0 < length c)%nat as Hlen by (destruct c; [discriminate | simpl; lia]).
  split.
  - exists g. split; [|exact Hgok]. rewrite nth_error_app1 by lia. exact Hg.
  - intros i prev cur Hpos Hprev Hcur.
    destruct (Nat.lt_ge_cases i (length c)) as [Hlt|Hge].
    + rewrite nth_error_app1 in Hprev, Hcur by lia. eauto.
    + assert (i = length c) as ->.
      { assert (i < length (c ++ [block]))%nat as Hb
            by (apply nth_error_Some; congruence).
        rewrite length_app in Hb. simpl in Hb. lia. }
      rewrite nth_error_app1 in Hprev by lia.
      rewrite nth_error_app2, Nat.sub_diag in Hcur by lia.
      injection Hcur as <-. rewrite Hlast in Hprev. injection Hprev as <-.
      repeat split; auto. apply leading_zeros_startswith. exact Hs.
Qed.

(** A ledger that holds no block yet loads only valid chains. *)
Lemma load_chain_ok (w w' : world) :
  chain (ledger w) = [] ->
  load_chain w = (true, w') ->
  ledger_ok (difficulty (ledger w)) w'.
Proof.
  intros Hempty. unfold load_chain.
  destruct (files w !! storage_path (ledger w)) as [[|data]|]; try discriminate.
  match goal with
  | |- match ?p with _ => _ end = _ -> _ => destruct p as [[loaded pending]|]
  end; [|discriminate].
  destruct (is_valid_chain (ledger w) (Some loaded)) eqn:Hv; [|discriminate].
  intros [= <-]. unfold ledger_ok. simpl. split; [reflexivity|].
  destruct loaded as [|g c].
  - rewrite is_valid_chain_empty_list in Hv. apply is_valid_chain_own in Hv.
    rewrite Hempty in Hv. exact Hv.
  - apply is_valid_chain_nonempty in Hv. exact Hv.
Qed.

Lemma create_genesis_block_ok (fuel : nat) (now : pyfloat) (w w' : world) (g : Block) :
  chain (ledger w) = [] ->
  create_genesis_block fuel now w = (Return g, w') ->
  ledger_ok (difficulty (ledger w)) w'.
Proof.
  intros Hempty. unfold create_genesis_block.
  destruct (proof_of_work _ _ _) as [blk| |] eqn:Hpow; try discriminate.
  intros [= -> <-]. unfold proof_of_work in Hpow.
  apply pow_loop_returns in Hpow as (m & _ & -> & Hs).
  unfold ledger_ok. rewrite ledger_after_autosave. simpl. split; [reflexivity|].
  rewrite Hempty. simpl. apply chain_ok_genesis; auto.
Qed.

Lemma init_ok (fuel : nat) (now : pyfloat) (cwd : string) (d : Z) (a : bool)
    (path : option string) (fs : disk) (w : world) :
  init fuel now cwd d a path fs = (Return tt, w) -> ledger_ok d w.
Proof.
  unfold init.
  set (p := match path with
            | Some p => if String.eqb p "" then default_storage_path cwd else p
            | None => default_storage_path cwd
            end).
  destruct (load_chain (mkWorld (mkBlockchain d a p [] []) fs)) as [loaded w1] eqn:Hload.
  destruct loaded.
  - intros [= <-]. apply load_chain_ok in Hload; [exact Hload | reflexivity].
  - assert (w1 = mkWorld (mkBlockchain d a p [] []) fs) as ->.
    { revert Hload. unfold load_chain.
      destruct (files _ !! _) as [[|data]|]; try (intros [= <-]; reflexivity).
      match goal with
      | |- match ?x with _ => _ end = _ -> _ => destruct x as [[loaded pending]|]
      end; [|intros [= <-]; reflexivity].
      destruct (is_valid_chain _ _); [discriminate | intros [= <-]; reflexivity]. }
    destruct (create_genesis_block fuel now _) as [[g| |] w2] eqn:Hgen; try discriminate.
    intros [= <-]. apply create_genesis_block_ok in Hgen; [exact Hgen | reflexivity].
Qed.

Lemma perform_ok (d : Z) (c : call) (w w' : world) :
  ledger_ok d w -> perform c w = Some w' -> ledger_ok d w'.
Proof.
  intros [Hd Hok]. destruct c as [t|fuel now|ncs]; simpl.
  - unfold add_transaction. destruct (validate_transaction t); try discriminate.
    intros [= <-]. unfold ledger_ok. rewrite ledger_after_autosave. simpl. auto.
  - destruct (mine_pending_transactions fuel now w) as [[blk| |] w1] eqn:Hmine;
      try discriminate.
    intros [= <-].
    apply mine_returns_inv in Hmine as (last & m & _ & Hl & Hb & _ & Hs & Hw).
    unfold ledger_ok. rewrite Hw. simpl. split; [assumption|].
    rewrite Hd in Hs. apply (chain_ok_append d _ last); auto; subst blk; reflexivity.
  - intros [= <-].
    pose proof (resolve_conflicts_cases ncs w) as H. cbv zeta in H.
    destruct H as [[Hres _] | (best & _ & raw & _ & w1 & Hres & Hl & _ & Hq & _)];
      rewrite Hres; cbn [snd].
    + split; assumption.
    + unfold ledger_ok. rewrite Hl. simpl. split; [assumption|].
      rewrite <- Hd. apply Hq.
Qed.

Lemma perform_all_ok (d : Z) (cs : list call) :
  forall w w', ledger_ok d w -> perform_all cs w = Some w' -> ledger_ok d w'.
Proof.
  induction cs as [|c cs IH]; intros w w' Hok; simpl.
  - intros [= <-]. exact Hok.
  - destruct (perform c w) as [w1|] eqn:Hc; [|discriminate].
    apply IH. apply (perform_ok d c w w1 Hok Hc).
Qed.

(** C10. Whatever the constructor finds on disk, once it has returned, and
    after any sequence of calls of [add_transaction],
    [mine_pending_transactions] and [resolve_conflicts] that all return,
    [is_valid_chain()] on the ledger's own chain is true (and the difficulty
    is the one the ledger was built with). *)
Theorem ledger_stays_valid (fuel : nat) (now : pyfloat) (cwd : string) (d : Z)
    (a : bool) (path : option string) (fs : disk) (calls : list call) (w0 w : world) :
  init fuel now cwd d a path fs = (Return tt, w0) ->
  perform_all calls w0 = Some w ->
  is_valid_chain (ledger w) None = true /\ difficulty (ledger w) = d.
Proof.
  intros Hinit Hcalls. apply init_ok in Hinit.
  destruct (perform_all_ok d calls w0 w Hinit Hcalls) as [Hd Hok].
  split; [|exact Hd]. apply is_valid_chain_own. rewrite Hd. exact Hok.
Qed.

Lemma ledger_stays_valid_witness :
  init 13 (FFinite "1700000000.5") "/tmp" 1 false (Some "chain.json") ∅
  = (Return tt, mkWorld ledger_1 ∅) /\
  perform_all [CallAddTransaction alice_pays_bob;
               CallMine 6 (FFinite "1700000001.25");
               CallResolve [[to_dict genesis_1]]] (mkWorld ledger_1 ∅)
  = Some (mkWorld ledger_2 ∅) /\
  is_valid_chain ledger_2 None = true /\ difficulty ledger_2 = 1.
Proof.
  assert (init 13 (FFinite "1700000000.5") "/tmp" 1 false (Some "chain.json") ∅
          = (Return tt, mkWorld ledger_1 ∅)) as Hinit by (vm_compute; reflexivity).
  assert (perform_all [CallAddTransaction alice_pays_bob;
                       CallMine 6 (FFinite "1700000001.25");
                       CallResolve [[to_dict genesis_1]]] (mkWorld ledger_1 ∅)
          = Some (mkWorld ledger_2 ∅)) as Hcalls by (vm_compute; reflexivity).
  split; [exact Hinit|]. split; [exact Hcalls|].
  exact (ledger_stays_valid 13 (FFinite "1700000000.5") "/tmp" 1 false
           (Some "chain.json") ∅ _ _ _ Hinit Hcalls).
Defined.

(** ** The canonical encoding *)








Lemma dumps_dict (d : list (string * json)) :
  Json.dumps (JDict d)
  = "{" +:+ String.concat ", "
              (List.map Json.item
                 (Json.sort_items (List.map (fun kv => (fst kv, Json.dumps (snd kv))) d)))
        +:+ "}".
Proof. reflexivity. Qed.

Lemma dumps_list (l : list json) :
  Json.dumps (JList l) = "[" +:+ String.concat ", " (List.map Json.dumps l) +:+ "]".
Proof. reflexivity. Qed.

(** *** The encoding is one-to-one *)



















































(** ** Tampering *)

















(** * Further properties *)

(** ** Block dicts *)

(** X1. [[Block.from_dict(b) for b in raw]] returns exactly when every dict
    has the keys [index] and [timestamp]; the blocks it returns are, one
    for one, those the dicts stand for, with the defaults for the absent
    keys.  Otherwise it raises [KeyError]; and the dicts [to_dict] makes
    always come back as the blocks they were made from. *)
Theorem from_dicts_spec (raw : list BlockDict) :
  (forall c, from_dicts raw = Return c <-> Forall2 represents raw c) /\
  ((exists key, from_dicts raw = Raise (KeyError key)) <-> Exists lacks_required_key raw) /\
  ((exists c, from_dicts raw = Return c) \/ exists key, from_dicts raw = Raise (KeyError key)) /\
  (forall c, raw = List.map to_dict c -> from_dicts raw = Return c).
Proof.
  assert (forall d b, from_dict d = Return b <-> represents d b) as Hone.
  { intros [i t txs p n h] [bi bt btxs bp bn bh]. unfold from_dict, represents. simpl.
    destruct i as [i|]; [destruct t as [t|]|]; simpl.
    - split.
      + intros [= <- <- <- <- <- <-]. repeat split.
      + intros ([= <-] & [= <-] & -> & -> & -> & ->). reflexivity.
    - split; [discriminate | intros (_ & H & _); discriminate].
    - split; [discriminate | intros (H & _); discriminate]. }
  assert (forall d, (exists key, from_dict d = Raise (KeyError key)) <-> lacks_required_key d)
    as Hfail.
  { intros [i t txs p n h]. unfold from_dict, lacks_required_key. simpl.
    destruct i as [i|]; [destruct t as [t|]|]; simpl.
    - split; [intros [k H]; discriminate | intros [H|H]; discriminate].
    - split; [auto | eauto].
    - split; [auto | eauto]. }
  assert (forall d, (exists b, from_dict d = Return b) \/ exists key, from_dict d = Raise (KeyError key))
    as Htot.
  { intros [i t txs p n h]. unfold from_dict. simpl.
    destruct i as [i|]; [destruct t as [t|]|]; eauto. }
  assert (forall l, (exists c, from_dicts l = Return c)
                    \/ exists key, from_dicts l = Raise (KeyError key)) as Hall.
  { induction l as [|d l IH]; simpl; [eauto|].
    destruct (Htot d) as [[b Hd]|[k Hd]]; rewrite Hd; [|eauto].
    destruct IH as [[c Hc]|[k Hk]]; [rewrite Hc | rewrite Hk]; eauto. }
  split; [|split; [|split]].
  - induction raw as [|d raw IH]; intros c; simpl.
    + split; [intros [= <-]; constructor | intros H; inversion H; reflexivity].
    + destruct (Htot d) as [[b Hd]|[k Hd]]; rewrite Hd.
      * destruct (Hall raw) as [[bs Hr]|[k Hr]]; rewrite Hr in *.
        -- split.
           ++ intros [= <-]. constructor; [apply Hone; exact Hd | apply IH; reflexivity].
           ++ intros H. inversion H as [|? b' ? bs' Hb Hbs]; subst.
              apply Hone in Hb. apply IH in Hbs. congruence.
        -- split; [discriminate|]. intros H. inversion H as [|? b' ? bs' Hb Hbs]; subst.
           apply IH in Hbs. discriminate.
      * split; [discriminate|]. intros H. inversion H as [|? b' ? bs' Hb Hbs]; subst.
        apply Hone in Hb. congruence.
  - induction raw as [|d raw IH]; simpl.
    + split; [intros [k H]; discriminate | intros H; inversion H].
    + destruct (Htot d) as [[b Hd]|[k Hd]]; rewrite Hd.
      * destruct (Hall raw) as [[bs Hr]|[k' Hr]]; rewrite Hr in *.
        -- split; [intros [k H]; discriminate|].
           intros H. inversion H as [? ? Hl|? ? Hl]; subst.
           ++ apply Hfail in Hl as [k Hk]. congruence.
           ++ apply IH in Hl as [k Hk]. discriminate.
        -- split; [intros _; apply Exists_cons_tl, IH; eauto | eauto].
      * split; [intros _; apply Exists_cons_hd, Hfail; eauto | eauto].
  - apply Hall.
  - intros c ->. apply from_dicts_to_dicts.
Qed.

(** ** The canonical encoding, further *)



(** ** Proof of work, further *)

Lemma pow_loop_returns_least (prefix : string) (b b' : Block) (fuel : nat) :
  forall (start : Z),
    pow_loop fuel prefix b start = Return b' ->
    exists k, (k < fuel)%nat /\ b' = mined b (start + Z.of_nat k) /\
              startswith (compute_hash (set_nonce b (start + Z.of_nat k))) prefix = true /\
              forall j, start <= j < start + Z.of_nat k ->
                startswith (compute_hash (set_nonce b j)) prefix = false.
Proof.
  induction fuel as [|fuel IH]; intros start; simpl; [discriminate|].
  destruct (startswith (compute_hash (set_nonce b start)) prefix) eqn:Hs.
  - intros [= <-]. exists 0%nat. rewrite Z.add_0_r.
    split; [lia|]. split; [reflexivity|]. split; [exact Hs|]. intros j Hj. lia.
  - rewrite pow_loop_set_nonce. intros H. apply IH in H as (k & Hk & Hb & Hsk & Hl).
    exists (S k). replace (start + Z.of_nat (S k)) with (start + 1 + Z.of_nat k) by lia.
    split; [lia|]. split; [exact Hb|]. split; [exact Hsk|].
    intros j Hj. destruct (Z.eq_dec j start) as [->|Hne]; [exact Hs|]. apply Hl. lia.
Qed.

(** X3. Whatever [proof_of_work] returns is a solution: the block has the
    contents it was given, a nonce counted from 0 in fewer rounds than the
    fuel, the digest of its contents as hash, the required zeros in front
    of it, and no smaller nonce would have done. *)
Theorem proof_of_work_sound (fuel : nat) (self : Blockchain) (b b' : Block) :
  proof_of_work fuel self b = Return b' ->
  same_contents b b' /\ 0 <= nonce b' < Z.of_nat fuel /\
  hash b' = compute_hash b' /\ leading_zeros (difficulty self) (hash b') /\
  forall j, 0 <= j < nonce b' -> ~ solves (difficulty self) b j.
Proof.
  unfold proof_of_work. intros H.
  apply pow_loop_returns_least in H as (k & Hk & -> & Hs & Hl). simpl.
  split; [repeat split|]. split; [lia|]. split; [reflexivity|].
  split; [apply leading_zeros_startswith; exact Hs|].
  intros j Hj Hc. apply leading_zeros_startswith in Hc.
  rewrite (Hl j ltac:(lia)) in Hc. discriminate.
Qed.

Lemma proof_of_work_sound_witness :
  proof_of_work 13 ledger_1 genesis_candidate = Return genesis_1 /\
  same_contents genesis_candidate genesis_1 /\ 0 <= nonce genesis_1 < 13.
Proof.
  assert (proof_of_work 13 ledger_1 genesis_candidate = Return genesis_1) as Hrun
      by (vm_compute; reflexivity).
  split; [exact Hrun|].
  destruct (proof_of_work_sound 13 ledger_1 genesis_candidate genesis_1 Hrun)
    as (H1 & H2 & _).
  split; [exact H1 | exact H2].
Defined.




(** A difficulty of zero or less asks for nothing: [proof_of_work]
    returns in its first round, with nonce 0. *)
Theorem proof_of_work_no_difficulty (fuel : nat) (self : Blockchain) (b : Block) :
  difficulty self <= 0 ->
  proof_of_work (S fuel) self b = Return (mined b 0).
Proof.
  intros Hd. unfold proof_of_work. rewrite str_mul_nonpos by exact Hd.
  assert (forall h, startswith h "" = true) as Hany
      by (intros h; apply startswith_spec; exists h; reflexivity).
  cbn [pow_loop]. cbv zeta. rewrite Hany. reflexivity.
Qed.

Lemma proof_of_work_no_difficulty_witness :
  difficulty (mkBlockchain (-3) false "chain.json" [] []) <= 0 /\
  proof_of_work 1 (mkBlockchain (-3) false "chain.json" [] []) genesis_candidate
  = Return (mined genesis_candidate 0).
Proof.
  split; [simpl; lia|].
  apply (proof_of_work_no_difficulty 0 (mkBlockchain (-3) false "chain.json" [] [])
           genesis_candidate).
  simpl. lia.
Defined.



(** ** The validator, further *)

Lemma chain_ok_take (d : Z) (c : list Block) (n : nat) :
  chain_ok d c -> (0 < n)%nat -> chain_ok d (firstn n c).
Proof.
  intros [(g & Hg & Hgok) Hsucc] Hn. split.
  - exists g. split; [|exact Hgok]. rewrite nth_error_firstn.
    destruct (Nat.ltb_spec 0 n); [exact Hg | lia].
  - intros i prev cur Hpos Hprev Hcur. rewrite nth_error_firstn in Hprev, Hcur.
    destruct (Nat.ltb_spec i n); [|discriminate].
    destruct (Nat.ltb_spec (i - 1) n); [|discriminate]. eauto.
Qed.

(** X5. A chain that passes the validator still passes when it is cut
    after any of its blocks. *)
Theorem is_valid_chain_prefix (self : Blockchain) (c : list Block) (n : nat) :
  is_valid_chain self (Some c) = true -> (0 < n)%nat ->
  is_valid_chain self (Some (firstn n c)) = true.
Proof.
  intros Hv Hn. destruct c as [|g c].
  - destruct n; exact Hv.
  - apply is_valid_chain_nonempty in Hv.
    apply is_valid_chain_supplied; [destruct n; [lia | discriminate]|].
    apply chain_ok_take; assumption.
Qed.

Lemma is_valid_chain_prefix_witness :
  is_valid_chain ledger_2 (Some [genesis_1; block_1]) = true /\ (0 < 1)%nat /\
  is_valid_chain ledger_2 (Some [genesis_1]) = true.
Proof.
  assert (is_valid_chain ledger_2 (Some [genesis_1; block_1]) = true) as Hv
      by (vm_compute; reflexivity).
  split; [exact Hv|]. split; [lia|].
  apply (is_valid_chain_prefix ledger_2 [genesis_1; block_1] 1 Hv). lia.
Defined.

Lemma append_assoc (a b c : string) : (a +:+ b) +:+ c = a +:+ (b +:+ c).
Proof. induction a as [|x a IH]; simpl; [reflexivity|]. rewrite IH. reflexivity. Qed.

Lemma str_repeat_app (s : string) (n m : nat) :
  str_repeat s (n + m) = str_repeat s n +:+ str_repeat s m.
Proof.
  induction n as [|n IH]; simpl; [reflexivity|].
  rewrite IH, append_assoc. reflexivity.
Qed.

Lemma leading_zeros_fewer (d d' : Z) (h : string) :
  d' <= d -> leading_zeros d h -> leading_zeros d' h.
Proof.
  intros Hle [rest ->]. unfold leading_zeros, str_mul.
  replace (Z.to_nat d) with (Z.to_nat d' + (Z.to_nat d - Z.to_nat d'))%nat by lia.
  rewrite str_repeat_app, append_assoc. eexists. reflexivity.
Qed.

Lemma chain_ok_fewer (d d' : Z) (c : list Block) :
  d' <= d -> chain_ok d c -> chain_ok d' c.
Proof.
  intros Hle [(g & Hg & H1 & H2 & H3 & H4 & H5) Hsucc]. split.
  - exists g. split; [exact Hg|]. repeat split; auto.
    exact (leading_zeros_fewer _ _ _ Hle H5).
  - intros i prev cur Hpos Hprev Hcur.
    destruct (Hsucc i prev cur Hpos Hprev Hcur) as (E1 & E2 & E3 & E4).
    repeat split; auto. exact (leading_zeros_fewer _ _ _ Hle E4).
Qed.

(** X6. A chain that is valid at one difficulty is valid at every lower
    one: a ledger with the same chain and a lower difficulty accepts what
    the first accepts. *)
Theorem is_valid_chain_lower_difficulty (self self' : Blockchain)
    (supplied : option (list Block)) :
  chain self' = chain self -> difficulty self' <= difficulty self ->
  is_valid_chain self supplied = true -> is_valid_chain self' supplied = true.
Proof.
  intros Hc Hd Hv. destruct supplied as [[|g c]|].
  - rewrite is_valid_chain_empty_list in *. apply is_valid_chain_own in Hv.
    apply is_valid_chain_own. rewrite Hc. exact (chain_ok_fewer _ _ _ Hd Hv).
  - apply is_valid_chain_nonempty in Hv. apply is_valid_chain_nonempty.
    exact (chain_ok_fewer _ _ _ Hd Hv).
  - apply is_valid_chain_own in Hv.
    apply is_valid_chain_own. rewrite Hc. exact (chain_ok_fewer _ _ _ Hd Hv).
Qed.

Lemma is_valid_chain_lower_difficulty_witness :
  chain ledger_2_easy = chain ledger_2 /\ difficulty ledger_2_easy <= difficulty ledger_2 /\
  is_valid_chain ledger_2 None = true /\ is_valid_chain ledger_2_easy None = true.
Proof.
  assert (is_valid_chain ledger_2 None = true) as Hv by (vm_compute; reflexivity).
  split; [reflexivity|]. split; [simpl; lia|]. split; [exact Hv|].
  apply (is_valid_chain_lower_difficulty ledger_2 ledger_2_easy None);
    [reflexivity | simpl; lia | exact Hv].
Defined.

(** The last block of a chain, against the blocks before it. *)
Lemma chain_ok_snoc (d : Z) (c : list Block) (b : Block) :
  chain_ok d (c ++ [b]) <->
  match list_last c with
  | None => genesis_ok d b
  | Some last => chain_ok d c /\ successor_ok d (length c) last b
  end.
Proof.
  destruct (list_last c) as [last|] eqn:Hlast.
  - assert (0 < length c)%nat as Hlen by (destruct c; [discriminate | simpl; lia]).
    pose proof (list_last_nth_error _ _ Hlast) as Hnth.
    split.
    + intros Hok. split.
      * pose proof (chain_ok_take d (c ++ [b]) (length c) Hok Hlen) as H.
        rewrite firstn_app, Nat.sub_diag, firstn_all in H. simpl in H.
        rewrite app_nil_r in H. exact H.
      * destruct Hok as [_ Hsucc]. apply Hsucc; [exact Hlen | |].
        -- rewrite nth_error_app1 by lia. exact Hnth.
        -- rewrite nth_error_app2, Nat.sub_diag by lia. reflexivity.
    + intros [Hok (E1 & E2 & E3 & E4)].
      apply (chain_ok_append d c last b); auto.
      apply leading_zeros_startswith. exact E4.
  - assert (c = []) as -> by (destruct c as [|x [|y c]]; [reflexivity | discriminate |];
                              exfalso; revert Hlast; clear;
                              revert x y; induction c as [|z c IH]; intros x y;
                              [discriminate | apply (IH y z)]).
    simpl. split.
    + intros [(g & [= <-] & Hg) _]. exact Hg.
    + intros Hg. split; [exists b; split; [reflexivity | exact Hg]|].
      intros i prev cur Hpos _ Hcur. destruct i as [|[|i]]; [lia| |]; discriminate.
Qed.

(** X7. Tampering with the last block and recomputing its hash: when the
    timestamp, the transactions or the nonce of the last block of a valid
    chain is overwritten and [compute_hash] is stored as its hash, the
    validator accepts the chain exactly when the new digest happens to have
    the zeros the difficulty asks for; at a difficulty of zero or less it
    always does. *)
Theorem rehash_last_block (self : Blockchain) (c : list Block) (b : Block) (m : mutation) :
  is_valid_chain self (Some (c ++ [b])) = true ->
  digest_protected m = true ->
  let b' := set_hash (mutate m b) (compute_hash (mutate m b)) in
  is_valid_chain self (Some (c ++ [b']))
  = startswith (compute_hash (mutate m b)) (str_mul "0" (difficulty self)) /\
  (difficulty self <= 0 -> is_valid_chain self (Some (c ++ [b'])) = true).
Proof.
  intros Hv Hm b'.
  assert (is_valid_chain self (Some (c ++ [b'])) = true
          <-> startswith (compute_hash (mutate m b)) (str_mul "0" (difficulty self)) = true)
    as Hiff.
  { apply is_valid_chain_supplied in Hv; [|destruct c; discriminate].
    rewrite is_valid_chain_supplied by (destruct c; discriminate).
    rewrite chain_ok_snoc in *. rewrite leading_zeros_startswith.
    assert (index b' = index b /\ previous_hash b' = previous_hash b /\
            hash b' = compute_hash (mutate m b) /\ compute_hash b' = compute_hash (mutate m b))
      as (Ei & Ep & Eh & Ec)
      by (subst b'; destruct m; try discriminate; repeat split).
    destruct (list_last c) as [last|].
    - destruct Hv as [Hok (E1 & E2 & E3 & E4)]. unfold successor_ok.
      rewrite Ei, Ep, Eh, Ec. tauto.
    - destruct Hv as (E1 & E2 & E3 & E4 & E5). unfold genesis_ok.
      rewrite Ei, Ep, Eh, Ec. pose proof (compute_hash_nonempty (mutate m b)). tauto. }
  split.
  - destruct (is_valid_chain self (Some (c ++ [b']))), (startswith _ _); auto;
      destruct Hiff as [H1 H2]; [symmetry; apply H1 | apply H2]; reflexivity.
  - intros Hd. apply Hiff. rewrite str_mul_nonpos by exact Hd.
    apply startswith_spec. eexists. reflexivity.
Qed.

(** The test [test_validation_detects_tampering] at difficulty 0: the
    tampered chain passes. *)
Lemma rehash_last_block_witness :
  is_valid_chain ledger_2_easy (Some ([genesis_1] ++ [block_1])) = true /\
  digest_protected (SetTransactions [alice_pays_more]) = true /\
  is_valid_chain ledger_2_easy
    (Some ([genesis_1] ++
           [set_hash (mutate (SetTransactions [alice_pays_more]) block_1)
                     (compute_hash (mutate (SetTransactions [alice_pays_more]) block_1))]))
  = true.
Proof.
  assert (is_valid_chain ledger_2_easy (Some ([genesis_1] ++ [block_1])) = true) as Hv
      by (vm_compute; reflexivity).
  split; [exact Hv|]. split; [reflexivity|].
  destruct (rehash_last_block ledger_2_easy [genesis_1] block_1
              (SetTransactions [alice_pays_more]) Hv eq_refl) as [_ H].
  apply H. simpl. lia.
Defined.

(** ** The pool and the chain under the calls *)




(** X10. The chain only grows: [add_transaction] leaves it as it is, mining
    appends one block to it, and after [resolve_conflicts] it is either the
    same or strictly longer. *)
Theorem chain_only_grows (c : call) (w w' : world) :
  perform c w = Some w' ->
  match c with
  | CallAddTransaction _ => chain (ledger w') = chain (ledger w)
  | CallMine _ _ => exists block, chain (ledger w') = chain (ledger w) ++ [block]
  | CallResolve _ =>
      chain (ledger w') = chain (ledger w) \/
      (length (chain (ledger w)) < length (chain (ledger w')))%nat
  end.
Proof.
  destruct c as [t|fuel now|ncs]; simpl.
  - unfold add_transaction. destruct (validate_transaction t); try discriminate.
    intros [= <-]. rewrite ledger_after_autosave. reflexivity.
  - destruct (mine_pending_transactions fuel now w) as [[blk| |] w1] eqn:Hmine;
      try discriminate.
    intros [= <-].
    apply mine_returns_inv in Hmine as (last & m & _ & _ & _ & _ & _ & ->).
    exists blk. reflexivity.
  - intros [= <-].
    pose proof (resolve_conflicts_cases ncs w) as H. cbv zeta in H.
    destruct H as [[Hres _] | (best & _ & raw & _ & w1 & Hres & Hl & _ & Hq & _)];
      rewrite Hres; cbn [snd]; [left; reflexivity|].
    right. rewrite Hl. simpl. apply Hq.
Qed.

Lemma chain_only_grows_witness :
  perform (CallResolve [[to_dict genesis_1; to_dict block_1]]) (mkWorld ledger_1 ∅)
  = Some (mkWorld ledger_2 ∅) /\
  (chain ledger_2 = chain ledger_1 \/ (length (chain ledger_1) < length (chain ledger_2))%nat).
Proof.
  assert (perform (CallResolve [[to_dict genesis_1; to_dict block_1]]) (mkWorld ledger_1 ∅)
          = Some (mkWorld ledger_2 ∅)) as Hrun by (vm_compute; reflexivity).
  split; [exact Hrun|].
  exact (chain_only_grows (CallResolve [[to_dict genesis_1; to_dict block_1]])
           (mkWorld ledger_1 ∅) (mkWorld ledger_2 ∅) Hrun).
Defined.

Lemma pow_loop_never_raises (fuel : nat) (prefix : string) (b : Block) (start : Z) (e : exn) :
  pow_loop fuel prefix b start <> Raise e.
Proof.
  revert start. induction fuel as [|fuel IH]; intros start; simpl; [discriminate|].
  destruct (startswith _ _); [discriminate|]. rewrite pow_loop_set_nonce. apply IH.
Qed.



(** ** The disk *)

Lemma stored_after_save (w : world) : stored (save_chain w).
Proof. unfold stored, save_chain. simpl. apply lookup_insert_eq. Qed.

(** X12. What the calls write to the storage file.  Without autosave no
    call touches the files.  With autosave a call that returns either changed
    nothing at all or left the storage file holding the chain and the pool
    of the ledger. *)
Theorem calls_and_the_storage_file (c : call) (w w' : world) :
  perform c w = Some w' ->
  (autosave (ledger w) = false -> files w' = files w) /\
  (autosave (ledger w) = true -> stored w' \/ w' = w).
Proof.
  assert (forall l : Blockchain,
            autosave l = autosave (ledger w) -> storage_path l = storage_path (ledger w) ->
            let w1 := if autosave (ledger w) then save_chain (mkWorld l (files w))
                      else mkWorld l (files w) in
            (autosave (ledger w) = false -> files w1 = files w) /\
            (autosave (ledger w) = true -> stored w1 \/ w1 = w)) as Hsave.
  { intros l Ha Hp. cbv zeta. destruct (autosave (ledger w)).
    - split; [discriminate|]. intros _; left; apply stored_after_save.
    - split; [reflexivity | discriminate]. }
  destruct c as [t|fuel now|ncs]; simpl.
  - unfold add_transaction. destruct (validate_transaction t); try discriminate.
    intros [= <-]. apply (Hsave (set_pending (ledger w) _)); reflexivity.
  - unfold mine_pending_transactions.
    destruct (pending_transactions (ledger w)); [discriminate|].
    destruct (list_last (chain (ledger w))); [|discriminate].
    destruct (proof_of_work _ _ _); try discriminate.
    intros [= <-]. apply (Hsave (set_pending (set_chain (ledger w) _) [])); reflexivity.
  - intros [= <-]. unfold resolve_conflicts.
    destruct (fold_left _ _ _) as [[[|b best]|] m]; cbn [snd];
      try (split; [reflexivity | right; reflexivity]).
    apply (Hsave (set_chain (ledger w) (b :: best))); reflexivity.
Qed.

Lemma calls_and_the_storage_file_witness :
  perform (CallAddTransaction alice_pays_bob)
          (mkWorld (mkBlockchain 1 true "chain.json" [genesis_1] []) ∅)
  = Some (save_chain (mkWorld (mkBlockchain 1 true "chain.json" [genesis_1] [alice_pays_bob]) ∅))
  /\ (autosave (ledger (mkWorld (mkBlockchain 1 true "chain.json" [genesis_1] []) ∅)) = true ->
      stored (save_chain (mkWorld (mkBlockchain 1 true "chain.json" [genesis_1]
                                                [alice_pays_bob]) ∅)) \/
      save_chain (mkWorld (mkBlockchain 1 true "chain.json" [genesis_1] [alice_pays_bob]) ∅)
      = mkWorld (mkBlockchain 1 true "chain.json" [genesis_1] []) ∅).
Proof.
  assert (perform (CallAddTransaction alice_pays_bob)
            (mkWorld (mkBlockchain 1 true "chain.json" [genesis_1] []) ∅)
          = Some (save_chain (mkWorld (mkBlockchain 1 true "chain.json" [genesis_1]
                                                    [alice_pays_bob]) ∅))) as Hrun
      by reflexivity.
  split; [exact Hrun|].
  exact (proj2 (calls_and_the_storage_file
                  (CallAddTransaction alice_pays_bob)
                  (mkWorld (mkBlockchain 1 true "chain.json" [genesis_1] []) ∅)
                  (save_chain (mkWorld (mkBlockchain 1 true "chain.json" [genesis_1]
                                                    [alice_pays_bob]) ∅))
                  Hrun)).
Defined.

(** X13. [load_chain] never writes, and when it returns false the ledger is
    as it was; when it returns true the difficulty, the autosave switch and
    the path are as before. *)
Theorem load_chain_reads_only (w : world) :
  files (snd (load_chain w)) = files w /\
  (fst (load_chain w) = false -> snd (load_chain w) = w) /\
  difficulty (ledger (snd (load_chain w))) = difficulty (ledger w) /\
  autosave (ledger (snd (load_chain w))) = autosave (ledger w) /\
  storage_path (ledger (snd (load_chain w))) = storage_path (ledger w).
Proof.
  unfold load_chain.
  destruct (files w !! storage_path (ledger w)) as [[|data]|];
    try (repeat split; reflexivity).
  match goal with
  | |- context [match ?p with Some _ => _ | None => _ end] =>
      destruct p as [[loaded pending]|]
  end; [|repeat split; reflexivity].
  destruct (is_valid_chain (ledger w) (Some loaded)); cbn [fst snd];
    repeat split; try reflexivity. discriminate.
Qed.

(** X14. A file in the old format: after [persistence.save_chain] has
    written a valid chain to the storage path, [load_chain] returns true,
    the ledger holds that chain, and its pending pool is empty, whatever it
    held before. *)
Theorem load_chain_old_format (self : Blockchain) (c : list Block) (fs : disk) :
  chain_ok (difficulty self) c ->
  load_chain (mkWorld self (Persistence.save_chain c (storage_path self) fs))
  = (true, mkWorld (set_pending (set_chain self c) [])
                   (Persistence.save_chain c (storage_path self) fs)).
Proof.
  intros Hok. unfold load_chain, Persistence.save_chain. cbn [ledger files].
  rewrite lookup_insert_eq, from_dicts_to_dicts.
  assert (is_valid_chain self (Some c) = true) as ->; [|reflexivity].
  apply is_valid_chain_supplied; [exact (chain_ok_nonempty _ _ Hok) | exact Hok].
Qed.

Lemma load_chain_old_format_witness :
  chain_ok (difficulty ledger_1_pending) [genesis_1; block_1] /\
  load_chain (mkWorld ledger_1_pending
                (Persistence.save_chain [genesis_1; block_1]
                   (storage_path ledger_1_pending) ∅))
  = (true, mkWorld (set_pending (set_chain ledger_1_pending [genesis_1; block_1]) [])
                   (Persistence.save_chain [genesis_1; block_1]
                      (storage_path ledger_1_pending) ∅)).
Proof.
  assert (chain_ok (difficulty ledger_1_pending) [genesis_1; block_1]) as Hok
      by (apply (is_valid_chain_nonempty ledger_2); vm_compute; reflexivity).
  split; [exact Hok|].
  exact (load_chain_old_format ledger_1_pending [genesis_1; block_1] ∅ Hok).
Defined.

(** ** The constructor *)

Lemma load_chain_usable (w : world) (f : file) (c : list Block) :
  files w !! storage_path (ledger w) = Some f ->
  from_dicts (blocks_in_file f) = Return c ->
  chain_ok (difficulty (ledger w)) c ->
  load_chain w = (true, mkWorld (set_pending (set_chain (ledger w) c) (pool_in_file f))
                                (files w)).
Proof.
  intros Hf Hraw Hok. unfold load_chain. rewrite Hf.
  assert (is_valid_chain (ledger w) (Some c) = true) as Hv
      by (apply is_valid_chain_supplied; [exact (chain_ok_nonempty _ _ Hok) | exact Hok]).
  destruct f as [|[raw|ck pk|]]; simpl in Hraw.
  - injection Hraw as <-. destruct Hok as [(g & Hg & _) _]. discriminate.
  - rewrite Hraw, Hv. reflexivity.
  - rewrite Hraw, Hv. destruct pk as [[txs|]|]; reflexivity.
  - injection Hraw as <-. destruct Hok as [(g & Hg & _) _]. discriminate.
Qed.

(** X16. A constructor that finds at the storage path a file whose block
    dicts make a chain valid at its difficulty takes that chain and the
    pool of the file (none for the old format), runs no proof of work and
    writes nothing. *)
Theorem init_loads (fuel : nat) (now : pyfloat) (cwd : string) (d : Z) (a : bool)
    (p : string) (fs : disk) (f : file) (c : list Block) :
  p <> "" -> fs !! p = Some f ->
  from_dicts (blocks_in_file f) = Return c -> chain_ok d c ->
  init fuel now cwd d a (Some p) fs
  = (Return tt, mkWorld (mkBlockchain d a p c (pool_in_file f)) fs).
Proof.
  intros Hp Hf Hraw Hok. unfold init.
  destruct (String.eqb_spec p "") as [->|_]; [contradiction|].
  rewrite (load_chain_usable (mkWorld (mkBlockchain d a p [] []) fs) f c Hf Hraw Hok).
  reflexivity.
Qed.

Lemma init_loads_witness :
  "chain.json" <> "" /\
  init 0 (FFinite "1700000009.0") "/tmp" 1 true (Some "chain.json")
       (files (save_chain (mkWorld ledger_1_pending ∅)))
  = (Return tt, mkWorld (mkBlockchain 1 true "chain.json" [genesis_1] [alice_pays_bob])
                        (files (save_chain (mkWorld ledger_1_pending ∅)))).
Proof.
  split; [discriminate|].
  apply (init_loads 0 (FFinite "1700000009.0") "/tmp" 1 true "chain.json"
           (files (save_chain (mkWorld ledger_1_pending ∅)))
           (JsonFile (DocDict (Some [to_dict genesis_1])
                              (Some (PendingList [alice_pays_bob]))))
           [genesis_1]);
    [discriminate | reflexivity | reflexivity |].
  apply (is_valid_chain_nonempty ledger_1). vm_compute. reflexivity.
Defined.

Lemma init_of_held (fuel : nat) (now : pyfloat) (cwd : string) (d : Z) (a : bool)
    (p : string) (fs : disk) (c : list Block) (pool : list transaction) :
  p <> "" -> holds fs p c pool -> chain_ok d c ->
  init fuel now cwd d a (Some p) fs = (Return tt, mkWorld (mkBlockchain d a p c pool) fs).
Proof.
  intros Hp Hf Hok. unfold init.
  destruct (String.eqb_spec p "") as [->|_]; [contradiction|].
  rewrite (load_chain_usable (mkWorld (mkBlockchain d a p [] []) fs) _ c Hf
             (from_dicts_to_dicts c) Hok).
  reflexivity.
Qed.

(** X17. With autosave, the state outlives the process: after a call of
    [add_transaction] or [mine_pending_transactions] that returned on a
    ledger whose chain is valid, a new ledger constructed on the same
    disk, path and difficulty has the same chain and the same pending pool,
    without any proof of work. *)
Theorem restart_after_autosave (c : call) (w w' : world) (d : Z)
    (fuel : nat) (now : pyfloat) (cwd : string) (a : bool) :
  autosave (ledger w) = true -> ledger_ok d w -> storage_path (ledger w) <> "" ->
  (forall ncs, c <> CallResolve ncs) ->
  perform c w = Some w' ->
  init fuel now cwd d a (Some (storage_path (ledger w))) (files w')
  = (Return tt,
     mkWorld (mkBlockchain d a (storage_path (ledger w)) (chain (ledger w'))
                           (pending_transactions (ledger w')))
             (files w')).
Proof.
  intros Ha Hok Hp Hc Hrun.
  pose proof (perform_ok d c w w' Hok Hrun) as [Hd' Hok'].
  assert (stored w' /\ storage_path (ledger w') = storage_path (ledger w)) as [Hst Hpath].
  { destruct c as [t|f0 n0|ncs]; simpl in Hrun.
    - unfold add_transaction in Hrun. destruct (validate_transaction t); try discriminate.
      injection Hrun as <-. rewrite Ha. split; [apply stored_after_save | reflexivity].
    - unfold mine_pending_transactions in Hrun.
      destruct (pending_transactions (ledger w)); [discriminate|].
      destruct (list_last (chain (ledger w))); [|discriminate].
      destruct (proof_of_work _ _ _); try discriminate.
      injection Hrun as <-. cbn [autosave set_pending set_chain]. rewrite Ha.
      split; [apply stored_after_save | reflexivity].
    - destruct (Hc ncs eq_refl). }
  unfold stored in Hst. rewrite Hpath in Hst.
  exact (init_of_held fuel now cwd d a _ _ _ _ Hp Hst Hok').
Qed.

Lemma restart_after_autosave_witness :
  perform (CallAddTransaction alice_pays_bob)
          (mkWorld (mkBlockchain 1 true "chain.json" [genesis_1] []) ∅)
  = Some (save_chain (mkWorld (mkBlockchain 1 true "chain.json" [genesis_1] [alice_pays_bob]) ∅))
  /\ init 0 (FFinite "1700000009.0") "/tmp" 1 false (Some "chain.json")
          (files (save_chain (mkWorld (mkBlockchain 1 true "chain.json" [genesis_1]
                                                    [alice_pays_bob]) ∅)))
     = (Return tt,
        mkWorld (mkBlockchain 1 false "chain.json" [genesis_1] [alice_pays_bob])
                (files (save_chain (mkWorld (mkBlockchain 1 true "chain.json" [genesis_1]
                                                          [alice_pays_bob]) ∅)))).
Proof.
  assert (perform (CallAddTransaction alice_pays_bob)
            (mkWorld (mkBlockchain 1 true "chain.json" [genesis_1] []) ∅)
          = Some (save_chain (mkWorld (mkBlockchain 1 true "chain.json" [genesis_1]
                                                    [alice_pays_bob]) ∅))) as Hrun
      by reflexivity.
  split; [exact Hrun|].
  assert (ledger_ok 1 (mkWorld (mkBlockchain 1 true "chain.json" [genesis_1] []) ∅)) as Hok.
  { split; [reflexivity|]. apply (is_valid_chain_nonempty ledger_1). vm_compute. reflexivity. }
  exact (restart_after_autosave (CallAddTransaction alice_pays_bob)
           (mkWorld (mkBlockchain 1 true "chain.json" [genesis_1] []) ∅) _ 1
           0 (FFinite "1700000009.0") "/tmp" false
           eq_refl Hok ltac:(discriminate) ltac:(discriminate) Hrun).
Defined.

(** ** The command line *)

Lemma dict_get_set (d : transaction) (k k' : string) (v : json) :
  dict_get (dict_set d k v) k' = if String.eqb k' k then Some v else dict_get d k'.
Proof.
  induction d as [|[k0 v0] d IH]; simpl.
  - destruct (String.eqb k' k); reflexivity.
  - destruct (String.eqb_spec k k0) as [->|Hne]; simpl.
    + destruct (String.eqb k' k0); reflexivity.
    + rewrite IH. destruct (String.eqb_spec k' k0) as [->|Hne'].
      * destruct (String.eqb_spec k0 k); [congruence | reflexivity].
      * reflexivity.
Qed.

Lemma dict_get_update (extra : transaction) : forall (d : transaction) (k : string),
  dict_get (dict_update d extra) k
  = match dict_get (List.rev extra) k with
    | Some v => Some v
    | None => dict_get d k
    end.
Proof.
  unfold dict_update. induction extra as [|[k0 v0] extra IH]; intros d k; simpl.
  - reflexivity.
  - rewrite IH, dict_get_set.
    assert (forall l, dict_get (l ++ [(k0, v0)]) k
                      = match dict_get l k with
                        | Some v => Some v
                        | None => if String.eqb k k0 then Some v0 else None
                        end) as Happ.
    { induction l as [|[k1 v1] l IHl]; simpl; [reflexivity|].
      destruct (String.eqb k k1); [reflexivity | exact IHl]. }
    rewrite Happ. destruct (dict_get (List.rev extra) k); [reflexivity|].
    destruct (String.eqb k k0); reflexivity.
Qed.

Lemma has_key_set (d : transaction) (k k' : string) (v : json) :
  has_key d k' -> has_key (dict_set d k v) k'.
Proof.
  rewrite !dict_get_has_key. intros [x Hx]. rewrite dict_get_set.
  destruct (String.eqb k' k); eauto.
Qed.

Lemma has_key_update (extra : transaction) : forall (d : transaction) (k : string),
  has_key d k -> has_key (dict_update d extra) k.
Proof.
  unfold dict_update. induction extra as [|[k0 v0] extra IH]; intros d k Hk; simpl.
  - exact Hk.
  - apply IH, has_key_set, Hk.
Qed.

(** X19. The transaction the command [add-transaction] builds: every key of
    the metadata takes the value the metadata gives it (the last one, were
    a key given twice), also when the key is [sender], [recipient] or
    [amount], so that metadata replaces what the options said; the other
    keys keep the values of the options; and the three mandatory keys are
    always there. *)
Theorem cli_transaction_lookup (sender recipient : string) (amount : pyfloat)
    (metadata : transaction) (k : string) :
  dict_get (cli_transaction sender recipient amount metadata) k
  = match dict_get (List.rev metadata) k with
    | Some v => Some v
    | None => dict_get [("sender", JStr sender); ("recipient", JStr recipient);
                        ("amount", JFloat amount)] k
    end /\
  has_key (cli_transaction sender recipient amount metadata) "sender" /\
  has_key (cli_transaction sender recipient amount metadata) "recipient" /\
  has_key (cli_transaction sender recipient amount metadata) "amount".
Proof.
  unfold cli_transaction. split; [apply dict_get_update|].
  repeat split; apply has_key_update; unfold has_key; simpl; auto.
Qed.

(** The amount of the option is 10; the metadata says -5; the command ends
    with status 1 and the disk holds the fresh genesis state only. *)
Example main_add_transaction_shadowed :
  main_add_transaction 13 (FFinite "1700000000.5") "/tmp" "chain.json" 1
    "Alice" "Bob" (FFinite "10.0") (Metadata (JDict negative_amount)) ∅
  = (Exit1, {[ "chain.json" := JsonFile (DocDict (Some [to_dict genesis_1])
                                                 (Some (PendingList []))) ]}).
Proof. vm_compute. reflexivity. Qed.

Lemma init_config (fuel : nat) (now : pyfloat) (cwd : string) (d : Z) (a : bool)
    (p : string) (fs : disk) (w : world) :
  p <> "" -> init fuel now cwd d a (Some p) fs = (Return tt, w) ->
  autosave (ledger w) = a /\ storage_path (ledger w) = p.
Proof.
  intros Hp. unfold init. destruct (String.eqb_spec p "") as [->|_]; [contradiction|].
  destruct (load_chain (mkWorld (mkBlockchain d a p [] []) fs)) as [loaded w1] eqn:Hload.
  assert (autosave (ledger w1) = a /\ storage_path (ledger w1) = p /\
          (loaded = false -> w1 = mkWorld (mkBlockchain d a p [] []) fs)) as (Ha & Hs & Hw).
  { revert Hload. unfold load_chain. cbn [ledger files storage_path].
    destruct (fs !! p) as [[|data]|]; try (intros [= <- <-]; auto).
    match goal with
    | |- match ?x with Some _ => _ | None => _ end = _ -> _ =>
        destruct x as [[lc pd]|]
    end; [|intros [= <- <-]; auto].
    destruct (is_valid_chain _ _); intros [= <- <-]; auto.
    repeat split. discriminate. }
  destruct loaded.
  - intros [= <-]. auto.
  - rewrite (Hw eq_refl). unfold create_genesis_block. cbn [ledger files].
    destruct (proof_of_work _ _ _); try discriminate.
    intros [= <-]. rewrite ledger_after_autosave. auto.
Qed.

(** X21. Two runs of the command line.  When [add-transaction] has run to
    the end, the transaction it built from its options (sender, recipient
    and amount, overridden by the metadata) passed the validation, and the
    storage file holds a valid chain and a pool that ends with exactly that
    transaction; when the file held a valid chain and a pool before, they
    are that chain and that pool.  A later [mine], in a process of its own,
    finds them there: it either is still mining, the disk untouched, or
    runs to the end and leaves in the file the chain with one more block,
    whose transactions are that pool, and an empty pool. *)
Theorem add_then_mine_in_two_runs (fuel : nat) (now : pyfloat) (cwd storage : string)
    (d : Z) (sender recipient : string) (amount : pyfloat) (metadata : metadata_option)
    (fs fs1 : disk) :
  storage <> "" ->
  main_add_transaction fuel now cwd storage d sender recipient amount metadata fs
  = (Finished, fs1) ->
  acceptable (cli_transaction sender recipient amount (metadata_items metadata)) /\
  exists c pool,
    holds fs1 storage c
          (pool ++ [cli_transaction sender recipient amount (metadata_items metadata)]) /\
    chain_ok d c /\
    (forall c0 pool0, holds fs storage c0 pool0 -> chain_ok d c0 -> c = c0 /\ pool = pool0) /\
    forall fuel' now1 now2,
      main_mine fuel' now1 now2 cwd storage d fs1 = (StillMining, fs1) \/
      exists block fs2,
        main_mine fuel' now1 now2 cwd storage d fs1 = (Finished, fs2) /\
        holds fs2 storage (c ++ [block]) [] /\
        transactions block
        = pool ++ [cli_transaction sender recipient amount (metadata_items metadata)] /\
        index block = Z.of_nat (length c).
Proof.
  intros Hp. unfold main_add_transaction, cli_blockchain.
  destruct (init fuel now cwd d true (Some storage) fs) as [[[]|e|] w] eqn:Hinit;
    try discriminate.
  destruct (init_config _ _ _ _ _ _ _ _ Hp Hinit) as [Ha Hs].
  pose proof Hinit as Hinit0.
  apply init_ok in Hinit as [Hd Hok].
  set (tx := cli_transaction sender recipient amount (metadata_items metadata)).
  intros Hrun.
  assert (match add_transaction tx w with
          | (Return _, w') => (Finished, files w')
          | (Raise (ValueError _), w') => (Exit1, files w')
          | (Raise _, w') => (Traceback, files w')
          | (OutOfFuel, w') => (StillMining, files w')
          end = (Finished, fs1)) as Hadd.
  { subst tx. destruct metadata as [| |[ | | | | | |m]]; try discriminate; exact Hrun. }
  clear Hrun. unfold add_transaction in Hadd.
  destruct (validate_transaction tx) as [[]|[msg|k|msg| |]|] eqn:Hval; try discriminate.
  rewrite Ha in Hadd. injection Hadd as Hfs1.
  split; [apply validate_transaction_accepts; exact Hval|].
  assert (holds fs1 storage (chain (ledger w)) (pending_transactions (ledger w) ++ [tx]))
    as Hheld.
  { rewrite <- Hfs1. unfold holds, save_chain. cbn [ledger files].
    cbn [storage_path set_pending chain pending_transactions]. rewrite Hs.
    apply lookup_insert_eq. }
  clear Hfs1.
  exists (chain (ledger w)), (pending_transactions (ledger w)).
  split; [exact Hheld|]. split; [exact Hok|]. split.
  { intros c0 pool0 Hheld0 Hok0.
    rewrite (init_of_held fuel now cwd d true storage fs c0 pool0 Hp Hheld0 Hok0) in Hinit0.
    injection Hinit0 as <-. split; reflexivity. }
  intros fuel' now1 now2. unfold main_mine, cli_blockchain.
  rewrite (init_of_held fuel' now1 cwd d true storage fs1 _ _ Hp Hheld Hok).
  unfold mine_pending_transactions. cbn [ledger files pending_transactions chain].
  destruct (pending_transactions (ledger w) ++ [tx])
    as [|t0 ts0] eqn:Hpool; [destruct (pending_transactions (ledger w)); discriminate|].
  destruct (list_last (chain (ledger w))) as [last|] eqn:Hlast.
  2:{ exfalso. apply chain_ok_nonempty in Hok.
      destruct (chain (ledger w)) as [|x [|y l]]; [contradiction | discriminate |].
      revert Hlast. clear. revert x y. induction l as [|z l IH]; intros x y;
        [discriminate | apply (IH y z)]. }
  destruct (proof_of_work _ _ _) as [blk|e|] eqn:Hpow.
  - right. unfold proof_of_work in Hpow.
    apply pow_loop_returns in Hpow as (n & _ & -> & _).
    exists (mined (mkBlock (Z.of_nat (length (chain (ledger w)))) now2 (t0 :: ts0)
                           (hash last) 0 "") n).
    eexists. split; [reflexivity|]. cbn [autosave set_pending set_chain].
    split; [|split; reflexivity].
    unfold holds, save_chain. cbn [ledger files storage_path]. apply lookup_insert_eq.
  - exfalso. exact (pow_loop_never_raises _ _ _ _ _ Hpow).
  - left. reflexivity.
Qed.

Lemma add_then_mine_in_two_runs_witness :
  "chain.json" <> "" /\
  main_add_transaction 13 (FFinite "1700000000.5") "/tmp" "chain.json" 1
    "Alice" "Bob" (FFinite "10.0") NoMetadata ∅
  = (Finished,
     {[ "chain.json" :=
          JsonFile (DocDict (Some [to_dict genesis_1])
                            (Some (PendingList [cli_transaction "Alice" "Bob"
                                                  (FFinite "10.0") []]))) ]}) /\
  acceptable (cli_transaction "Alice" "Bob" (FFinite "10.0") (metadata_items NoMetadata)).
Proof.
  assert (main_add_transaction 13 (FFinite "1700000000.5") "/tmp" "chain.json" 1
            "Alice" "Bob" (FFinite "10.0") NoMetadata ∅
          = (Finished,
             {[ "chain.json" :=
                  JsonFile (DocDict (Some [to_dict genesis_1])
                                    (Some (PendingList [cli_transaction "Alice" "Bob"
                                                          (FFinite "10.0") []]))) ]}))
    as Hrun by (vm_compute; reflexivity).
  assert ("chain.json" <> "") as Hp by discriminate.
  split; [exact Hp|]. split; [exact Hrun|].
  exact (proj1 (add_then_mine_in_two_runs 13 (FFinite "1700000000.5") "/tmp" "chain.json" 1
              "Alice" "Bob" (FFinite "10.0") NoMetadata ∅
              {[ "chain.json" :=
                   JsonFile (DocDict (Some [to_dict genesis_1])
                                     (Some (PendingList [cli_transaction "Alice" "Bob"
                                                           (FFinite "10.0") []]))) ]}
              Hp Hrun)).
Defined.

(** * The program on untyped values: properties *)

(** C3 does not hold of the code.  The [try] of [resolve_conflicts] covers
    the deserialisation only, and [is_valid_chain] calls
    [genesis.hash.startswith] on whatever the candidate gave as hash.  The
    sample ledger of one block adopts the valid chain of two blocks when it
    comes alone; when the candidate [hash_five] comes before it, the call
    raises [AttributeError], the valid longer chain is never looked at and
    the ledger keeps its chain. *)
Theorem resolve_conflicts_raises :
  Dynamic.resolve_conflicts [longer_chain] dynamic_ledger_1
  = (Return true, Dynamic.mkWorld (dynamic_ledger ledger_2) ∅) /\
  Dynamic.deserialize hash_five
  = Return [ Dynamic.mkBlock (JInt 0) (JFloat (FFinite "1700000000.5")) (JList [])
                             (JStr "0") (JInt 0) (JInt 5);
             Dynamic.mkBlock (JInt 1) (JFloat (FFinite "1700000001.25")) (JList [])
                             (JStr "0") (JInt 0) (JStr "") ] /\
  Dynamic.resolve_conflicts [hash_five; longer_chain] dynamic_ledger_1
  = (Raise AttributeError, dynamic_ledger_1).
Proof. split; [|split]; vm_compute; reflexivity. Qed.

(** ** The untyped program *)

Lemma dynamic_is_valid_chain_supplied (self self' : Dynamic.Blockchain)
    (g : Dynamic.Block) (c : list Dynamic.Block) :
  Dynamic.difficulty self = Dynamic.difficulty self' ->
  Dynamic.is_valid_chain self (Some (g :: c)) = Dynamic.is_valid_chain self' (Some (g :: c)).
Proof. intros E. unfold Dynamic.is_valid_chain. simpl. rewrite E. reflexivity. Qed.

(** The loop state keeps the length of the chain it holds. *)
Lemma resolve_loop_length (self : Dynamic.Blockchain) (ncs : list json) :
  forall st st',
    Dynamic.resolve_loop self ncs st = Return st' ->
    (forall best, fst st = Some best -> snd st = length best) ->
    forall best, fst st' = Some best -> snd st' = length best.
Proof.
  induction ncs as [|raw ncs IH]; intros st st'; simpl.
  - intros [= <-]. auto.
  - destruct (Dynamic.resolve_step self st raw) as [st1| |] eqn:Hstep; try discriminate.
    intros Hloop Hst. apply (IH _ _ Hloop).
    revert Hstep. unfold Dynamic.resolve_step.
    destruct (Dynamic.deserialize raw) as [blocks| |]; try (intros [= <-]; exact Hst).
    destruct (snd st <? length blocks)%nat; [|intros [= <-]; exact Hst].
    destruct (Dynamic.is_valid_chain self (Some blocks)) as [[|]| |]; try discriminate.
    + intros [= <-]. simpl. intros best [= <-]. reflexivity.
    + intros [= <-]. exact Hst.
Qed.

(** When the loop has run to its end, it does nothing from a state whose
    length is at least the one it reached, in a ledger of the same
    difficulty. *)
Lemma resolve_loop_settles (self self' : Dynamic.Blockchain) (ncs : list json) :
  Dynamic.difficulty self = Dynamic.difficulty self' ->
  forall st st',
    Dynamic.resolve_loop self ncs st = Return st' ->
    (snd st <= snd st')%nat /\
    forall nc M, (snd st' <= M)%nat ->
                 Dynamic.resolve_loop self' ncs (nc, M) = Return (nc, M).
Proof.
  intros Hd. induction ncs as [|raw ncs IH]; intros st st'; simpl.
  - intros [= <-]. split; [lia | reflexivity].
  - destruct (Dynamic.resolve_step self st raw) as [st1| |] eqn:Hstep; try discriminate.
    intros Hloop. destruct (IH _ _ Hloop) as [Hle Hrest].
    assert ((snd st <= snd st1)%nat /\
            forall nc M, (snd st1 <= M)%nat ->
                         Dynamic.resolve_step self' (nc, M) raw = Return (nc, M))
      as [Hle1 Hstep'].
    { revert Hstep. unfold Dynamic.resolve_step.
      destruct (Dynamic.deserialize raw) as [blocks| |];
        try (intros [= <-]; split; [lia | reflexivity]).
      destruct (Nat.ltb_spec (snd st) (length blocks)) as [Hlt|Hge].
      - destruct blocks as [|g c]; [simpl in Hlt; lia|].
        rewrite <- (dynamic_is_valid_chain_supplied self self' g c Hd).
        destruct (Dynamic.is_valid_chain self (Some (g :: c))) as [[|]| |];
          try discriminate.
        + intros [= <-]. cbn [snd length] in *. split; [lia|]. intros nc M HM.
          destruct (Nat.ltb_spec M (S (length c))); [lia | reflexivity].
        + intros [= <-]. split; [lia|]. intros nc M HM. cbn [snd].
          destruct (M <? length (g :: c))%nat; reflexivity.
      - intros [= <-]. split; [lia|]. intros nc M HM. cbn [snd].
        destruct (Nat.ltb_spec M (length blocks)); [lia | reflexivity]. }
    split; [lia|]. intros nc M HM.
    rewrite Hstep' by lia. apply Hrest, HM.
Qed.

(** X18. [resolve_conflicts] settles at once: when a call has returned, a
    second call with the same candidates returns [False] and changes
    neither the ledger nor the disk. *)
Theorem resolve_conflicts_twice (neighbour_chains : list json) (w w1 : Dynamic.world)
    (replaced : bool) :
  Dynamic.resolve_conflicts neighbour_chains w = (Return replaced, w1) ->
  Dynamic.resolve_conflicts neighbour_chains w1 = (Return false, w1).
Proof.
  intros Hrun. destruct replaced.
  2:{ assert (w1 = w) as ->; [|exact Hrun].
      revert Hrun. unfold Dynamic.resolve_conflicts.
      destruct (Dynamic.resolve_loop _ _ _) as [[[[|b c]|] m]| |]; try discriminate;
        try (intros [= <-]; reflexivity). }
  revert Hrun. unfold Dynamic.resolve_conflicts.
  destruct (Dynamic.resolve_loop (Dynamic.ledger w) neighbour_chains
              (None, length (Dynamic.chain (Dynamic.ledger w))))
    as [[[[|b c]|] m]| |] eqn:Hloop; try discriminate.
  intros Hw1.
  assert (Dynamic.ledger w1 = Dynamic.set_chain (Dynamic.ledger w) (b :: c)) as Hl.
  { destruct (Dynamic.autosave (Dynamic.ledger w)); injection Hw1 as <-; reflexivity. }
  pose proof (resolve_loop_length _ _ _ _ Hloop) as Hm. cbn [fst snd] in Hm.
  specialize (Hm ltac:(discriminate) _ eq_refl).
  destruct (resolve_loop_settles (Dynamic.ledger w) (Dynamic.ledger w1) neighbour_chains
              ltac:(rewrite Hl; reflexivity) _ _ Hloop) as [_ Hsettle].
  rewrite (Hsettle None (length (Dynamic.chain (Dynamic.ledger w1)))).
  - reflexivity.
  - rewrite Hl. cbn [snd Dynamic.chain Dynamic.set_chain]. lia.
Qed.

Lemma resolve_conflicts_twice_witness :
  Dynamic.resolve_conflicts [longer_chain] dynamic_ledger_1
  = (Return true, Dynamic.mkWorld (dynamic_ledger ledger_2) ∅) /\
  Dynamic.resolve_conflicts [longer_chain] (Dynamic.mkWorld (dynamic_ledger ledger_2) ∅)
  = (Return false, Dynamic.mkWorld (dynamic_ledger ledger_2) ∅).
Proof.
  assert (Dynamic.resolve_conflicts [longer_chain] dynamic_ledger_1
          = (Return true, Dynamic.mkWorld (dynamic_ledger ledger_2) ∅)) as Hrun
      by (vm_compute; reflexivity).
  split; [exact Hrun|].
  exact (resolve_conflicts_twice [longer_chain] dynamic_ledger_1
           (Dynamic.mkWorld (dynamic_ledger ledger_2) ∅) true Hrun).
Defined.


(** What [load_chain] does, by what is at the storage path. *)
Lemma dynamic_load_chain_stored (w : Dynamic.world) :
  let self := Dynamic.ledger w in
  let f := Dynamic.files w !! Dynamic.storage_path self in
  Dynamic.load_chain w
  = match stored_blocks f with
    | None => (Return false, w)
    | Some loaded_chain =>
        match Dynamic.is_valid_chain self (Some loaded_chain) with
        | Return true =>
            (Return true,
             Dynamic.mkWorld (Dynamic.set_pending (Dynamic.set_chain self loaded_chain)
                                                  (stored_pool f))
                             (Dynamic.files w))
        | Return false => (Return false, w)
        | Raise e => (Raise e, w)
        | OutOfFuel => (OutOfFuel, w)
        end
    end.
Proof.
  cbv zeta. unfold Dynamic.load_chain, stored_blocks, stored_pool.
  destruct (Dynamic.files w !! Dynamic.storage_path (Dynamic.ledger w))
    as [[|[ |b|z|f|s|l|d]]|]; try reflexivity.
  - cbn [Dynamic.deserialize Dynamic.iterate].
    destruct (Dynamic.from_dicts l); reflexivity.
  - destruct (Dynamic.deserialize _); reflexivity.
Qed.












(** ** The typed program is the untyped one on well-typed values *)

Lemma dynamic_compute_hash (b : Block) :
  Dynamic.compute_hash (dynamic_block b) = compute_hash b.
Proof. reflexivity. Qed.

Lemma dynamic_to_dict (b : Block) : Dynamic.to_dict (dynamic_block b) = dynamic_dict (to_dict b).
Proof. reflexivity. Qed.

Lemma dynamic_from_dict (d : BlockDict) :
  Dynamic.from_dict (dynamic_dict d) = result_map dynamic_block (from_dict d).
Proof. destruct d as [[i|] [t|] [tx|] [p|] [n|] [h|]]; reflexivity. Qed.

Lemma dynamic_from_dicts (raw_chain : list BlockDict) :
  Dynamic.deserialize (dynamic_chain raw_chain)
  = result_map (List.map dynamic_block) (from_dicts raw_chain).
Proof.
  unfold dynamic_chain. cbn [Dynamic.deserialize Dynamic.iterate].
  induction raw_chain as [|d raw IH]; [reflexivity|].
  cbn [List.map Dynamic.from_dicts from_dicts]. rewrite dynamic_from_dict.
  destruct (from_dict d) as [b|e|]; [|reflexivity|reflexivity]. cbn [result_map].
  rewrite IH. destruct (from_dicts raw); reflexivity.
Qed.

Lemma dynamic_check_blocks (prefix : string) (c : list Block) (range : list nat) :
  Dynamic.check_blocks prefix (List.map dynamic_block c) range = check_blocks prefix c range.
Proof.
  induction range as [|i range IH]; [reflexivity|].
  cbn [Dynamic.check_blocks check_blocks]. rewrite !nth_error_map.
  destruct (nth_error c i) as [current|]; [|reflexivity].
  destruct (nth_error c (i - 1)) as [prev|]; [|reflexivity].
  cbn [option_map]. rewrite dynamic_compute_hash, IH. reflexivity.
Qed.

(** The validator never raises on well-typed blocks, and returns what the
    typed validator returns. *)
Lemma dynamic_is_valid_chain (self : Blockchain) (supplied : option (list Block)) :
  Dynamic.is_valid_chain (dynamic_ledger self) (option_map (List.map dynamic_block) supplied)
  = Return (is_valid_chain self supplied).
Proof.
  unfold Dynamic.is_valid_chain, is_valid_chain.
  assert (Dynamic.chain_or (option_map (List.map dynamic_block) supplied)
                           (Dynamic.chain (dynamic_ledger self))
          = List.map dynamic_block (chain_or supplied (chain self))) as ->.
  { destruct supplied as [[|b c]|]; reflexivity. }
  destruct (chain_or supplied (chain self)) as [|g c]; [reflexivity|].
  cbn [List.map length]. rewrite dynamic_compute_hash, length_map.
  change (dynamic_block g :: List.map dynamic_block c)
    with (List.map dynamic_block (g :: c)).
  rewrite dynamic_check_blocks.
  cbn [dynamic_block Dynamic.index Dynamic.previous_hash Dynamic.hash dynamic_ledger
       Dynamic.difficulty Dynamic.py_eq Dynamic.as_int Dynamic.truthy].
  destruct (negb (index g =? 0) || negb (String.eqb (previous_hash g) "0")); [reflexivity|].
  destruct (String.eqb (hash g) ""); [reflexivity|]. cbn [negb orb].
  destruct (negb (startswith (hash g) (str_mul "0" (difficulty self)))
            || negb (String.eqb (hash g) (compute_hash g))); reflexivity.
Qed.

Lemma dynamic_save_chain (w : world) :
  Dynamic.save_chain (dynamic_world w) = dynamic_world (save_chain w).
Proof.
  unfold Dynamic.save_chain, save_chain, dynamic_world.
  cbn [Dynamic.ledger Dynamic.files ledger files]. f_equal.
  rewrite fmap_insert. cbn [dynamic_ledger Dynamic.storage_path Dynamic.chain
                            Dynamic.pending_transactions].
  f_equal. cbn [dynamic_file optional_item option_map app dynamic_pending].
  unfold dynamic_chain. rewrite !map_map. reflexivity.
Qed.

Lemma dynamic_resolve_step (self : Blockchain) (new_chain : option (list Block))
    (max_length : nat) (raw_chain : list BlockDict) :
  Dynamic.resolve_step (dynamic_ledger self)
    (option_map (List.map dynamic_block) new_chain, max_length) (dynamic_chain raw_chain)
  = Return (option_map (List.map dynamic_block)
              (fst (resolve_step self (new_chain, max_length) raw_chain)),
            snd (resolve_step self (new_chain, max_length) raw_chain)).
Proof.
  unfold Dynamic.resolve_step, resolve_step.
  rewrite dynamic_from_dicts. cbn [snd].
  destruct (from_dicts raw_chain) as [blocks|e|]; cbn [result_map]; try reflexivity.
  rewrite length_map.
  destruct (max_length <? length blocks)%nat; cbn [andb]; [|reflexivity].
  pose proof (dynamic_is_valid_chain self (Some blocks)) as Hv. cbn [option_map] in Hv.
  rewrite Hv. destruct (is_valid_chain self (Some blocks)); reflexivity.
Qed.

Lemma dynamic_resolve_loop (self : Blockchain) (neighbour_chains : list (list BlockDict)) :
  forall (new_chain : option (list Block)) (max_length : nat),
    Dynamic.resolve_loop (dynamic_ledger self) (List.map dynamic_chain neighbour_chains)
      (option_map (List.map dynamic_block) new_chain, max_length)
    = Return (option_map (List.map dynamic_block)
                (fst (List.fold_left (resolve_step self) neighbour_chains
                                     (new_chain, max_length))),
              snd (List.fold_left (resolve_step self) neighbour_chains
                                  (new_chain, max_length))).
Proof.
  induction neighbour_chains as [|raw ncs IH]; intros nc m; [reflexivity|].
  cbn [List.map Dynamic.resolve_loop List.fold_left].
  rewrite dynamic_resolve_step.
  destruct (resolve_step self (nc, m) raw) as [nc' m']. apply IH.
Qed.

(** On candidates that are lists of well-typed block dicts,
    [resolve_conflicts] never raises and does what the typed function
    does. *)
Lemma dynamic_resolve_conflicts (neighbour_chains : list (list BlockDict)) (w : world) :
  Dynamic.resolve_conflicts (List.map dynamic_chain neighbour_chains) (dynamic_world w)
  = (Return (fst (resolve_conflicts neighbour_chains w)),
     dynamic_world (snd (resolve_conflicts neighbour_chains w))).
Proof.
  unfold Dynamic.resolve_conflicts, resolve_conflicts.
  cbn [dynamic_world Dynamic.ledger].
  pose proof (dynamic_resolve_loop (ledger w) neighbour_chains None
                (length (chain (ledger w)))) as Hloop.
  cbn [option_map] in Hloop.
  replace (length (Dynamic.chain (dynamic_ledger (ledger w))))
    with (length (chain (ledger w))) by (cbn; rewrite length_map; reflexivity).
  rewrite Hloop. clear Hloop.
  destruct (List.fold_left (resolve_step (ledger w)) neighbour_chains
              (None, length (chain (ledger w)))) as [[[|b c]|] m];
    cbn [fst snd option_map List.map]; try reflexivity.
  change (dynamic_block b :: List.map dynamic_block c)
    with (List.map dynamic_block (b :: c)).
  cbn [dynamic_ledger Dynamic.autosave Dynamic.files].
  destruct (autosave (ledger w)); cbn [fst snd].
  - rewrite <- dynamic_save_chain. reflexivity.
  - reflexivity.
Qed.

Lemma dynamic_load_chain (w : world) :
  Dynamic.load_chain (dynamic_world w)
  = (Return (fst (load_chain w)), dynamic_world (snd (load_chain w))).
Proof.
  rewrite dynamic_load_chain_stored. cbv zeta. unfold load_chain.
  cbn [dynamic_world Dynamic.ledger Dynamic.files].
  change (Dynamic.storage_path (dynamic_ledger (ledger w))) with (storage_path (ledger w)).
  rewrite lookup_fmap.
  destruct (files w !! storage_path (ledger w)) as [[|[raw|ck pk|]]|];
    cbn [fmap option_fmap option_map dynamic_file]; try reflexivity.
  - unfold stored_blocks, stored_pool, dynamic_chain.
    pose proof (dynamic_from_dicts raw) as Hd. unfold dynamic_chain in Hd.
    cbn [Dynamic.deserialize Dynamic.iterate] in Hd. rewrite Hd.
    destruct (from_dicts raw) as [c| |]; cbn [result_map]; try reflexivity.
    pose proof (dynamic_is_valid_chain (ledger w) (Some c)) as Hv. cbn [option_map] in Hv.
    rewrite Hv.
    destruct (is_valid_chain (ledger w) (Some c)); reflexivity.
  - assert (stored_blocks
              (Some (Dynamic.JsonFile
                       (JDict (optional_item "chain" (option_map dynamic_chain ck) ++
                               optional_item "pending_transactions"
                                 (option_map dynamic_pending pk)))))
            = match from_dicts (get_default ck []) with
              | Return c => Some (List.map dynamic_block c)
              | _ => None
              end) as ->.
    { unfold stored_blocks.
      assert (Dynamic.get (optional_item "chain" (option_map dynamic_chain ck) ++
                           optional_item "pending_transactions"
                             (option_map dynamic_pending pk)) "chain" (JList [])
              = dynamic_chain (get_default ck [])) as ->
        by (destruct ck, pk; reflexivity).
      rewrite dynamic_from_dicts. destruct (from_dicts _); reflexivity. }
    assert (stored_pool
              (Some (Dynamic.JsonFile
                       (JDict (optional_item "chain" (option_map dynamic_chain ck) ++
                               optional_item "pending_transactions"
                                 (option_map dynamic_pending pk)))))
            = List.map JDict match get_default pk (PendingList []) with
                             | PendingList txs => txs
                             | PendingOther => []
                             end) as ->
      by (destruct ck, pk as [[|]|]; reflexivity).
    destruct (from_dicts (get_default ck [])) as [c| |]; try reflexivity.
    pose proof (dynamic_is_valid_chain (ledger w) (Some c)) as Hv. cbn [option_map] in Hv.
    rewrite Hv.
    destruct (is_valid_chain (ledger w) (Some c)); reflexivity.
Qed.

Lemma dynamic_pow_loop (fuel : nat) (prefix : string) :
  forall (b : Block) (start : Z),
    Dynamic.pow_loop fuel prefix (dynamic_block b) start
    = result_map dynamic_block (pow_loop fuel prefix b start).
Proof.
  induction fuel as [|fuel IH]; intros b start; [reflexivity|].
  cbn [Dynamic.pow_loop pow_loop].
  change (Dynamic.set_nonce (dynamic_block b) (JInt start))
    with (dynamic_block (set_nonce b start)).
  rewrite dynamic_compute_hash.
  destruct (startswith _ prefix); [reflexivity | apply IH].
Qed.

Lemma dynamic_create_genesis_block (fuel : nat) (now : pyfloat) (w : world) :
  Dynamic.create_genesis_block fuel now (dynamic_world w)
  = (result_map dynamic_block (fst (create_genesis_block fuel now w)),
     dynamic_world (snd (create_genesis_block fuel now w))).
Proof.
  unfold Dynamic.create_genesis_block, create_genesis_block,
         Dynamic.proof_of_work, proof_of_work.
  change (Dynamic.mkBlock (JInt 0) (JFloat now) (JList []) (JStr "0") (JInt 0) (JStr ""))
    with (dynamic_block (mkBlock 0 now [] "0" 0 "")).
  change (Dynamic.difficulty (Dynamic.ledger (dynamic_world w))) with (difficulty (ledger w)).
  rewrite dynamic_pow_loop.
  destruct (pow_loop fuel _ _ 0) as [g|e|]; cbn [result_map fst snd]; try reflexivity.
  change (Dynamic.autosave (Dynamic.ledger (dynamic_world w))) with (autosave (ledger w)).
  assert (Dynamic.mkWorld
            (Dynamic.set_chain (Dynamic.ledger (dynamic_world w))
               (Dynamic.chain (Dynamic.ledger (dynamic_world w)) ++ [dynamic_block g]))
            (Dynamic.files (dynamic_world w))
          = dynamic_world (mkWorld (set_chain (ledger w) (chain (ledger w) ++ [g]))
                                   (files w))) as ->.
  { unfold dynamic_world, dynamic_ledger, Dynamic.set_chain, set_chain. cbn.
    rewrite map_app. reflexivity. }
  destruct (autosave (ledger w)); [rewrite dynamic_save_chain|]; reflexivity.
Qed.

(** On a disk of well-typed documents the constructor never raises and
    builds what the typed constructor builds. *)
Lemma dynamic_init (fuel : nat) (now : pyfloat) (cwd : string) (d : Z) (a : bool)
    (path : option string) (fs : disk) :
  Dynamic.init fuel now cwd d a path (dynamic_file <$> fs)
  = (fst (init fuel now cwd d a path fs),
     dynamic_world (snd (init fuel now cwd d a path fs))).
Proof.
  unfold Dynamic.init, init.
  set (p := match path with
            | Some p => if String.eqb p "" then default_storage_path cwd else p
            | None => default_storage_path cwd
            end).
  change (Dynamic.mkWorld (Dynamic.mkBlockchain d a p [] []) (dynamic_file <$> fs))
    with (dynamic_world (mkWorld (mkBlockchain d a p [] []) fs)).
  rewrite dynamic_load_chain.
  destruct (load_chain (mkWorld (mkBlockchain d a p [] []) fs)) as [[|] w1]; cbn [fst snd];
    [reflexivity|].
  rewrite dynamic_create_genesis_block.
  destruct (create_genesis_block fuel now w1) as [[g|e|] w2]; reflexivity.
Qed.

(** X22. The typed embedding is the untyped program on well-typed values:
    on blocks, candidates and documents whose fields have the declared
    types, the validator, [resolve_conflicts], [load_chain] and the
    constructor of the untyped program never raise more than their typed
    counterparts and compute the same results, ledgers and files. *)
Theorem typed_program_agrees :
  (forall self supplied,
     Dynamic.is_valid_chain (dynamic_ledger self)
       (option_map (List.map dynamic_block) supplied)
     = Return (is_valid_chain self supplied)) /\
  (forall neighbour_chains w,
     Dynamic.resolve_conflicts (List.map dynamic_chain neighbour_chains) (dynamic_world w)
     = (Return (fst (resolve_conflicts neighbour_chains w)),
        dynamic_world (snd (resolve_conflicts neighbour_chains w)))) /\
  (forall w,
     Dynamic.load_chain (dynamic_world w)
     = (Return (fst (load_chain w)), dynamic_world (snd (load_chain w)))) /\
  (forall fuel now cwd d a path fs,
     Dynamic.init fuel now cwd d a path (dynamic_file <$> fs)
     = (fst (init fuel now cwd d a path fs),
        dynamic_world (snd (init fuel now cwd d a path fs)))).
Proof.
  split; [exact dynamic_is_valid_chain|].
  split; [exact dynamic_resolve_conflicts|].
  split; [exact dynamic_load_chain | exact dynamic_init].
Qed.

(** A stored hash [0] is falsy: the validator returns [False] before it
    reaches [startswith], and the constructor mines a genesis block. *)
Example init_hash_zero :
  Dynamic.init 13 (FFinite "1700000000.5") "/tmp" 1 false (Some "chain.json")
    {[ "chain.json" :=
         Dynamic.JsonFile
           (JList [ JDict [ ("index", JInt 0);
                            ("timestamp", JFloat (FFinite "1700000000.5"));
                            ("hash", JInt 0) ] ]) ]}
  = (Return tt,
     Dynamic.mkWorld
       (dynamic_ledger ledger_1)
       {[ "chain.json" :=
            Dynamic.JsonFile
              (JList [ JDict [ ("index", JInt 0);
                               ("timestamp", JFloat (FFinite "1700000000.5"));
                               ("hash", JInt 0) ] ]) ]}).
Proof. vm_compute. reflexivity. Qed.
